(** * prpl_llm_utils: model caching, reprompting and code extraction

    A shallow embedding of [prpl_llm_utils] ([models.py], [cache.py],
    [code.py], [utils.py]).  Python strings are Stdlib [string]s (a [str]
    by its UTF-8 bytes), the
    file system is a pair of stdpp finite sets/maps (directories and regular
    files, keyed by lists of path components), and the effectful methods
    run in a small state-and-exception monad. *)

From Stdlib Require Import String Ascii ZArith.
From stdpp Require Import base gmap strings list pretty.

Local Open Scope string_scope.

(** ** Python string primitives *)

Module PyStr.

(** [s[n:]] *)
Fixpoint drop (n : nat) (s : string) : string :=
  match n, s with
  | 0, _ => s
  | S _, EmptyString => EmptyString
  | S n', String _ s' => drop n' s'
  end.

(** [s[:n]] *)
Fixpoint take (n : nat) (s : string) : string :=
  match n, s with
  | 0, _ => EmptyString
  | S _, EmptyString => EmptyString
  | S n', String c s' => String c (take n' s')
  end.

(** Position of the first occurrence of [pat] in [s] (CPython's [find]). *)
Fixpoint find (pat s : string) : option nat :=
  if String.prefix pat s then Some 0 else
  match s with
  | EmptyString => None
  | String _ s' => option_map S (find pat s')
  end.

(** [pat in s] *)
Definition contains (pat s : string) : bool :=
  match find pat s with Some _ => true | None => false end.

End PyStr.

(** ** Exceptions and the state/exception monad *)

(** The Python exceptions the modelled code raises or lets through. *)
Inductive exn :=
  | ResponseNotFound
  | ValueError (msg : string)
  | TypeError
  | RuntimeError (msg : string)
  | AssertionError
  | FileNotFoundError
  | FileExistsError
  | IsADirectoryError
  | NotADirectoryError
  | JSONDecodeError
  | UnicodeDecodeError
  | RemoteError (detail : string).  (** raised by a backend's [_run_query] *)

Inductive res (A : Type) :=
  | Ok (a : A)
  | Err (e : exn).
Arguments Ok {A} a.
Arguments Err {A} e.

Definition is_err {A} (r : res A) : bool :=
  match r with Ok _ => false | Err _ => true end.

(** Stateful code: a function from the state to the new state and the
    outcome (a returned value or a raised exception). *)
Definition M (S A : Type) := S -> S * res A.

Definition ret {S A} (a : A) : M S A := fun s => (s, Ok a).
Definition raise {S A} (e : exn) : M S A := fun s => (s, Err e).
Definition bind {S A B} (m : M S A) (k : A -> M S B) : M S B :=
  fun s => match m s with
           | (s', Ok a) => k a s'
           | (s', Err e) => (s', Err e)
           end.
(** A pure but fallible Python expression, in the monad. *)
Definition lift {S A} (r : res A) : M S A := fun s => (s, r).

Notation "'let*' x ':=' m 'in' k" := (bind m (fun x => k))
  (at level 200, x name, m at level 100, k at level 200).

(** ** Code extraction ([code.py], [utils.py]) *)

Definition python_code_prefix := "```python".
Definition fence := "```".

(** [str.index]: the first position, [ValueError] when absent. *)
Definition py_index (pat s : string) : res nat :=
  match PyStr.find pat s with
  | Some i => Ok i
  | None => Err (ValueError "substring not found")
  end.

(** [parse_python_code_from_text] on a [str] argument. *)
Definition parse_python_code_from_text (text : string) : res (option string) :=
  if PyStr.contains python_code_prefix text then
    match py_index python_code_prefix text with
    | Err e => Err e
    | Ok python_start =>
        let python_remainder :=
          PyStr.drop (python_start + String.length python_code_prefix) text in
        match (if PyStr.contains fence python_remainder
               then py_index fence python_remainder
               else Ok (String.length python_remainder)) with
        | Err e => Err e
        | Ok python_end => Ok (Some (PyStr.take python_end python_remainder))
        end
    end
  else Ok None.

(** The same function applied to a [Response.text] that may be [None]:
    [python_code_prefix in None] raises [TypeError]. *)
Definition parse_python_code_from_text_opt (text : option string)
  : res (option string) :=
  match text with
  | Some t => parse_python_code_from_text t
  | None => Err TypeError
  end.

(** [utils.parse_python_code_from_llm_response]: the same scan, but the
    whole response is returned when the prefix is absent. *)
Definition parse_python_code_from_llm_response (response : string) : res string :=
  if PyStr.contains python_code_prefix response then
    match py_index python_code_prefix response with
    | Err e => Err e
    | Ok python_start =>
        let python_remainder :=
          PyStr.drop (python_start + String.length python_code_prefix) response in
        match (if PyStr.contains fence python_remainder
               then py_index fence python_remainder
               else Ok (String.length python_remainder)) with
        | Err e => Err e
        | Ok python_end => Ok (PyStr.take python_end python_remainder)
        end
    end
  else Ok response.

Definition nl := String (ascii_of_nat 10) EmptyString.

Example parse_fenced :
  parse_python_code_from_text ("```python" ++ nl ++ "X" ++ nl ++ "```")
  = Ok (Some (nl ++ "X" ++ nl)).
Proof. reflexivity. Qed.

(** ** The file system *)

(** A path is the list of its components below [/]. *)
Abbreviation path := (list string).

(** A file holds bytes, one [ascii] per byte.  A Python [str] is
    represented by its UTF-8 encoding, so [open(p, "w", encoding="utf-8")]
    stores a written [str] unchanged (on POSIX, ['\n'] is written as is). *)
Record FS := mkFS {
  fs_dirs : gset path;            (** directories other than [/] *)
  fs_files : gmap path string     (** regular files and their bytes *)
}.

(** [lo <= b <= hi] for a byte [b]. *)
Definition byte_in (lo hi : nat) (b : ascii) : bool :=
  Nat.leb lo (nat_of_ascii b) && Nat.leb (nat_of_ascii b) hi.

(** The bytes that [bytes.decode("utf-8")] (strict) decodes without
    [UnicodeDecodeError]: the well-formed UTF-8 sequences (no overlong
    forms, no surrogates, nothing above U+10FFFF). *)
Fixpoint utf8_valid (b : string) : bool :=
  match b with
  | EmptyString => true
  | String c0 r0 =>
      if byte_in 0 127 c0 then utf8_valid r0
      else if byte_in 194 223 c0 then
        match r0 with
        | String c1 r1 => byte_in 128 191 c1 && utf8_valid r1
        | EmptyString => false
        end
      else if byte_in 224 239 c0 then
        match r0 with
        | String c1 (String c2 r2) =>
            byte_in (if Nat.eqb (nat_of_ascii c0) 224 then 160 else 128)
                    (if Nat.eqb (nat_of_ascii c0) 237 then 159 else 191) c1 &&
            byte_in 128 191 c2 && utf8_valid r2
        | _ => false
        end
      else if byte_in 240 244 c0 then
        match r0 with
        | String c1 (String c2 (String c3 r3)) =>
            byte_in (if Nat.eqb (nat_of_ascii c0) 240 then 144 else 128)
                    (if Nat.eqb (nat_of_ascii c0) 244 then 143 else 191) c1 &&
            byte_in 128 191 c2 && byte_in 128 191 c3 && utf8_valid r3
        | _ => false
        end
      else false
  end.

Definition CR : ascii := ascii_of_nat 13.
Definition LF : ascii := ascii_of_nat 10.

(** Universal newlines ([newline=None]) on reading: ["\r\n"] and a lone
    ["\r"] become ["\n"].  Carriage returns and line feeds are single
    bytes that never occur inside a multi-byte UTF-8 sequence, so the
    translation can be done on the bytes. *)
Fixpoint translate_newlines (s : string) : string :=
  match s with
  | EmptyString => EmptyString
  | String c r =>
      if Ascii.eqb c CR then
        match r with
        | String c' r' =>
            if Ascii.eqb c' LF then String LF (translate_newlines r')
            else String LF (translate_newlines r)
        | EmptyString => String LF EmptyString
        end
      else String c (translate_newlines r)
  end.

(** The text mode read of a file's bytes with [encoding="utf-8"]: strict
    decoding, then newline translation. *)
Definition decode_text (contents : string) : res string :=
  if utf8_valid contents then Ok (translate_newlines contents) else Err UnicodeDecodeError.

(** Components of a relative name, as [pathlib] splits it: on ['/'],
    without empty and ["."] components ([".."] stays a component). *)
Fixpoint split_slash (acc : string) (name : string) : list string :=
  match name with
  | EmptyString => [acc]
  | String c rest =>
      if Ascii.eqb c "/"%char then acc :: split_slash EmptyString rest
      else split_slash (acc ++ String c EmptyString) rest
  end.

Definition components (name : string) : list string :=
  filter (fun c => negb (String.eqb c "" || String.eqb c ".")) (split_slash "" name).

(** [p / name]: an absolute [name] replaces [p]. *)
Definition path_join (p : path) (name : string) : path :=
  match name with
  | String c _ => if Ascii.eqb c "/"%char then components name else p ++ components name
  | EmptyString => p
  end.

Definition parent (p : path) : path := removelast p.

Fixpoint strict_prefixes (p : path) : list path :=
  match p with
  | [] => []
  | x :: p' => [] :: map (cons x) (strict_prefixes p')
  end.

Definition is_dir (fs : FS) (p : path) : bool :=
  bool_decide (p = []) || bool_decide (p ∈ fs_dirs fs).

Definition is_file (fs : FS) (p : path) : bool :=
  match fs_files fs !! p with Some _ => true | None => false end.

(** [Path.exists] *)
Definition path_exists (fs : FS) (p : path) : bool := is_dir fs p || is_file fs p.

(** The [OSError] of a path whose parent directory is not there. *)
Definition no_parent_error (fs : FS) (p : path) : exn :=
  if existsb (is_file fs) (strict_prefixes p) then NotADirectoryError
  else FileNotFoundError.

(** [p.mkdir(exist_ok=True)] does not raise: [p] is a directory already,
    or nothing is there and its parent is a directory. *)
Definition mkdir_would_succeed (fs : FS) (p : path) : bool :=
  is_dir fs p || (negb (is_file fs p) && is_dir fs (parent p)).

(** The program state: the file system and the number of calls made so far
    to the remote model ([_run_query]). *)
Record St := mkSt { st_fs : FS; st_calls : nat }.

Definition set_fs (fs : FS) (s : St) : St := mkSt fs (st_calls s).

(** [p.mkdir(exist_ok=True)] (no [parents=True]). *)
Definition mkdir_exist_ok (p : path) : M St unit := fun s =>
  let fs := st_fs s in
  if is_dir fs p then (s, Ok tt)
  else if is_file fs p then (s, Err FileExistsError)
  else if is_dir fs (parent p) then
    (set_fs (mkFS ({[p]} ∪ fs_dirs fs) (fs_files fs)) s, Ok tt)
  else (s, Err (no_parent_error fs p)).

(** What [open(p, "r", encoding="utf-8").read()] returns or raises. *)
Definition read_result (fs : FS) (p : path) : res string :=
  match fs_files fs !! p with
  | Some contents => decode_text contents
  | None =>
      if is_dir fs p then Err IsADirectoryError
      else Err (no_parent_error fs p)
  end.

(** [with open(p, "r", encoding="utf-8") as f: f.read()] *)
Definition read_text (p : path) : M St string := fun s => (s, read_result (st_fs s) p).

(** [with open(p, "w") as f: f.write(x)]: opening creates or truncates
    the file; writing [None] then raises [TypeError]. *)
Definition write_text (p : path) (x : option string) : M St unit := fun s =>
  let fs := st_fs s in
  if is_dir fs p then (s, Err IsADirectoryError)
  else if is_dir fs (parent p) then
    let put v := set_fs (mkFS (fs_dirs fs) (<[p := v]> (fs_files fs))) s in
    match x with
    | Some v => (put v, Ok tt)
    | None => (put "", Err TypeError)
    end
  else (s, Err (no_parent_error fs p)).

Example split_example : components "a//b/./c" = ["a"; "b"; "c"].
Proof. reflexivity. Qed.

(** [Path.exists] in the monad. *)
Definition exists_path (p : path) : M St bool := fun s => (s, Ok (path_exists (st_fs s) p)).

(** ** Queries and responses ([structs.py]) *)

(** A PIL image, by the bytes [img.save] writes for it. *)
Record Img := mkImg { img_jpeg : string }.

(** [Query(prompt, imgs, hyperparameters)]; the hyperparameter dict is its
    list of items, each value by its [repr]. *)
Record Query := mkQuery {
  prompt : string;
  imgs : option (list Img);
  hyperparameters : option (list (string * string))
}.

Section Models.

(** The metadata dict of a response, with [json.dump] and [json.load]
    ([None]: the text is not valid JSON). *)
Context {Meta : Type} (json_dumps : Meta -> string) (json_loads : string -> option Meta).

(** [Response(text, metadata)]; the text may be [None], as the OpenAI client's
    [message.content] may be. *)
Record Response := mkResponse { text : option string; metadata : Meta }.

(** [json.load(f)] *)
Definition json_load (s : string) : res Meta :=
  match json_loads s with Some m => Ok m | None => Err JSONDecodeError end.

(** [for i, img in enumerate(imgs): img.save(imgs_folderpath / (str(i) + ".jpg"))] *)
Fixpoint save_imgs (folder : path) (i : nat) (l : list Img) : M St unit :=
  match l with
  | [] => ret tt
  | img :: l' =>
      let* _ := write_text (path_join folder (pretty i ++ ".jpg")) (Some (img_jpeg img)) in
      save_imgs folder (S i) l'
  end.

(** The image part of caching a prompt. *)
Definition save_query_imgs (cache_dir : path) (imgs : option (list Img)) : M St unit :=
  match imgs with
  | Some l =>
      let imgs_folderpath := path_join cache_dir "imgs" in
      let* _ := mkdir_exist_ok imgs_folderpath in
      save_imgs imgs_folderpath 0 l
  | None => ret tt
  end.

(** *** [cache.py]: [FilePretrainedLargeModelCache] *)

Section FileCache.

(** [Query.get_readable_id] ([structs.py] is not part of the sources read;
    any function of the query). *)
Context (get_readable_id : Query -> string).

Record FilePretrainedLargeModelCache := { cache_cache_dir : path }.

Definition FilePretrainedLargeModelCache_init (cache_dir : path)
  : M St FilePretrainedLargeModelCache :=
  let* _ := mkdir_exist_ok cache_dir in
  ret {| cache_cache_dir := cache_dir |}.

Definition cache_folder (self : FilePretrainedLargeModelCache) (query : Query)
    (model_id : string) : path :=
  let query_id := get_readable_id query in
  let cache_foldername := model_id ++ "_" ++ query_id in
  path_join (cache_cache_dir self) cache_foldername.

Definition _get_cache_dir_for_query (self : FilePretrainedLargeModelCache)
    (query : Query) (model_id : string) : M St path :=
  let cache_folderpath := cache_folder self query model_id in
  let* _ := mkdir_exist_ok cache_folderpath in
  ret cache_folderpath.

Definition try_load_response (self : FilePretrainedLargeModelCache)
    (query : Query) (model_id : string) : M St Response :=
  let* cache_dir := _get_cache_dir_for_query self query model_id in
  let* hit := exists_path (path_join cache_dir "prompt.txt") in
  if negb hit then raise ResponseNotFound else
  let* completion := read_text (path_join cache_dir "completion.txt") in
  let* metadata_text := read_text (path_join cache_dir "metadata.json") in
  let* metadata := lift (json_load metadata_text) in
  ret (mkResponse (Some completion) metadata).

Definition save (self : FilePretrainedLargeModelCache) (query : Query)
    (model_id : string) (response : Response) : M St unit :=
  let* cache_dir := _get_cache_dir_for_query self query model_id in
  let* _ := write_text (path_join cache_dir "prompt.txt") (Some (prompt query)) in
  let* _ := save_query_imgs cache_dir (imgs query) in
  let* _ := write_text (path_join cache_dir "completion.txt") (text response) in
  write_text (path_join cache_dir "metadata.json") (Some (json_dumps (metadata response))).

End FileCache.

(** *** [models.py]: [PretrainedLargeModel] *)

Section Client.

(** [Query.get_id], as formatted into the folder name ([structs.py] is
    not part of the sources read; any function of the query). *)
Context (query_get_id : Query -> string).

(** A model: [get_id()], the constructor's [cache_dir] and
    [use_cache_only], and the subclass's [_run_query], which may depend on
    how many remote calls were made before (as an ordered-response test
    double does) and may raise. *)
Record PretrainedLargeModel := {
  get_id : string;
  model_cache_dir : path;
  use_cache_only : bool;
  run_query : nat -> Query -> res Response
}.

(** One invocation of [self._run_query(query)], counted in the state. *)
Definition _run_query (self : PretrainedLargeModel) (query : Query) : M St Response :=
  fun s => (mkSt (st_fs s) (S (st_calls s)), run_query self (st_calls s) query).

Definition model_folder (self : PretrainedLargeModel) (query : Query) : path :=
  let model_id := get_id self in
  let query_id := query_get_id query in
  let cache_foldername := model_id ++ "_" ++ query_id in
  path_join (model_cache_dir self) cache_foldername.

Definition _get_cache_dir (self : PretrainedLargeModel) (query : Query) : M St path :=
  let* _ := mkdir_exist_ok (model_cache_dir self) in
  let cache_folderpath := model_folder self query in
  let* _ := mkdir_exist_ok cache_folderpath in
  ret cache_folderpath.

(** The miss branch of [query]: query the model and cache the prompt,
    images, completion and metadata. *)
Definition query_and_cache (self : PretrainedLargeModel) (query : Query)
    (cache_dir : path) : M St unit :=
  if use_cache_only self then raise (ValueError "No cached response found for prompt.") else
  let* response := _run_query self query in
  let* _ := write_text (path_join cache_dir "prompt.txt") (Some (prompt query)) in
  let* _ := save_query_imgs cache_dir (imgs query) in
  let* _ := write_text (path_join cache_dir "completion.txt") (text response) in
  write_text (path_join cache_dir "metadata.json") (Some (json_dumps (metadata response))).

(** The hit path of [query], also run after a miss: load the saved files. *)
Definition load_cached (cache_dir : path) : M St Response :=
  let* completion := read_text (path_join cache_dir "completion.txt") in
  let* metadata_text := read_text (path_join cache_dir "metadata.json") in
  let* metadata := lift (json_load metadata_text) in
  ret (mkResponse (Some completion) metadata).

(** [PretrainedLargeModel.query(prompt, imgs, hyperparameters)] *)
Definition query (self : PretrainedLargeModel) (prompt : string)
    (imgs : option (list Img)) (hyperparameters : option (list (string * string)))
  : M St Response :=
  let query := mkQuery prompt imgs hyperparameters in
  let* cache_dir := _get_cache_dir self query in
  let* hit := exists_path (path_join cache_dir "prompt.txt") in
  let* _ := (if negb hit then query_and_cache self query cache_dir else ret tt) in
  load_cached cache_dir.

(** Whether the cache holds an entry for the query: its [prompt.txt]
    exists, or is the cache directory itself, which [_get_cache_dir]
    creates before the check (the two coincide only for a folder name
    starting with ['/']). *)
Definition has_entry (self : PretrainedLargeModel) (query : Query) (s : St) : bool :=
  let prompt_file := path_join (model_folder self query) "prompt.txt" in
  path_exists (st_fs s) prompt_file || bool_decide (prompt_file = model_cache_dir self).

End Client.

End Models.

Arguments Response : clear implicits.
Arguments PretrainedLargeModel : clear implicits.

(** ** Reprompt checks and code synthesis ([code.py], [reprompting.py]) *)

(** [sep.join(l)] *)
Fixpoint py_join (sep : string) (l : list string) : string :=
  match l with
  | [] => ""
  | [x] => x
  | x :: l' => x ++ sep ++ py_join sep l'
  end.

(** The classes [ast.parse] raises that [except SyntaxError] catches:
    [SyntaxError] and its subclasses [IndentationError] and [TabError]. *)
Inductive syntax_error_class :=
  | SyntaxError_
  | IndentationError_
  | TabError_.

(** The class name [traceback] prints. *)
Definition syntax_error_class_name (c : syntax_error_class) : string :=
  match c with
  | SyntaxError_ => "SyntaxError"
  | IndentationError_ => "IndentationError"
  | TabError_ => "TabError"
  end.

(** An exception of one of these classes raised by [ast.parse]: its class,
    its [msg], whether it has a [lineno], the lines [traceback] prints for
    its location, and the traceback frames above. *)
Record SyntaxErr := mkSyntaxErr {
  se_class : syntax_error_class;
  se_msg : string;
  se_has_lineno : bool;
  se_location : list string;
  se_traceback : list string
}.

(** The detail [traceback] prints after the class name: [msg], or
    ["<no detail available>"] when it is empty, then the file name
    [ast.parse] uses when no line number is known. *)
Definition syntax_error_detail (e : SyntaxErr) : string :=
  (if String.eqb (se_msg e) "" then "<no detail available>" else se_msg e) ++
  (if se_has_lineno e then "" else " (<unknown>)").

(** [traceback.format_exception(e)] for such an exception: the frames, the
    location, then the line ["<class name>: <detail>"]. *)
Definition format_exception (e : SyntaxErr) : list string :=
  se_traceback e ++ se_location e ++
  [syntax_error_class_name (se_class e) ++ ": " ++ syntax_error_detail e ++ nl].

(** What [ast.parse(source)] does: return a tree, raise [SyntaxError], or
    raise something else (e.g. [ValueError] on null bytes before 3.12). *)
Inductive parse_outcome :=
  | ParseOk
  | ParseSyntaxError (e : SyntaxErr)
  | ParseOtherError (e : exn).

Section Reprompting.

Context {Meta : Type}.

(** A [RepromptCheck]: [get_reprompt(query, response)], [None] to accept. *)
Definition RepromptCheck := Query -> Response Meta -> res (option Query).

(** [reprompting.create_reprompt_from_error_message] ([reprompting.py] is
    not part of the sources read; any function of its three arguments). *)
Context (create_reprompt_from_error_message : Query -> Response Meta -> string -> Query).
(** [ast.parse] *)
Context (ast_parse : string -> parse_outcome).

Definition no_code_msg := "No python code was found in the response.".

(** [SyntaxRepromptCheck().get_reprompt] *)
Definition SyntaxRepromptCheck : RepromptCheck := fun query response =>
  match parse_python_code_from_text_opt (text response) with
  | Err e => Err e
  | Ok None => Ok (Some (create_reprompt_from_error_message query response no_code_msg))
  | Ok (Some python_code) =>
      match ast_parse python_code with
      | ParseOk => Ok None
      | ParseSyntaxError e =>
          let error_msg := py_join nl (format_exception e) in
          Ok (Some (create_reprompt_from_error_message query response error_msg))
      | ParseOtherError e => Err e
      end
  end.

(** The checks in order; the first rejection wins. *)
Fixpoint run_checks (checks : list RepromptCheck) (query : Query) (response : Response Meta)
  : res (option Query) :=
  match checks with
  | [] => Ok None
  | check :: checks' =>
      match check query response with
      | Err e => Err e
      | Ok (Some reprompt) => Ok (Some reprompt)
      | Ok None => run_checks checks' query response
      end
  end.

Context {Sigma : Type} (issue : Query -> M Sigma (Response Meta)).

(** Modelled from the spec: [reprompting.query_with_reprompts] (missing
    from the sources), after the Reprompt Loop of section 4.4.  [remaining]
    is [maxAttempts - attempt]: issue the current query, run the checks in
    order; accept, or reprompt with the first check's follow-up while
    [attempt < maxAttempts], or return the last response when the budget
    is exhausted. *)
Fixpoint reprompt_loop (checks : list RepromptCheck) (remaining : nat) (query : Query)
  : M Sigma (Response Meta) :=
  let* response := issue query in
  let* reprompt := lift (run_checks checks query response) in
  match reprompt with
  | None => ret response
  | Some next_query =>
      match remaining with
      | 0 => ret response
      | S remaining' => reprompt_loop checks remaining' next_query
      end
  end.

(** Modelled from the spec: [query_with_reprompts(model, query, checks,
    max_attempts)], starting at attempt 1; [maxAttempts] must be at least 1. *)
Definition query_with_reprompts (query : Query) (checks : list RepromptCheck)
    (max_attempts : nat) : M Sigma (Response Meta) :=
  match max_attempts with
  | 0 => raise AssertionError
  | S k => reprompt_loop checks k query
  end.

Record SynthesizedPythonFunction := mkSynthesizedPythonFunction {
  function_name : string;
  code_str : string
}.

(** [synthesize_python_function_with_llm(function_name, model, query,
    reprompt_checks, max_attempts)], the model being [issue]. *)
Definition synthesize_python_function_with_llm (function_name : string) (query : Query)
    (reprompt_checks : option (list RepromptCheck)) (max_attempts : nat)
  : M Sigma SynthesizedPythonFunction :=
  let reprompt_checks := match reprompt_checks with Some l => l | None => [] end in
  let* response := query_with_reprompts query reprompt_checks max_attempts in
  let* python_code := lift (parse_python_code_from_text_opt (text response)) in
  match python_code with
  | None => raise (RuntimeError "No python code found. Consider SyntaxRepromptCheck().")
  | Some code => ret (mkSynthesizedPythonFunction function_name code)
  end.

End Reprompting.

(** ** Occurrences of a substring *)

Module Occurs.

(** [pat] occurs in [s] at position [i]. *)
Definition occurs_at (pat s : string) (i : nat) : bool := String.prefix pat (PyStr.drop i s).

(** [i] is the first position where [pat] occurs in [s]. *)
Definition first_occurrence (pat s : string) (i : nat) : Prop :=
  occurs_at pat s i = true /\ forall j, j < i -> occurs_at pat s j = false.

End Occurs.

(** ** Views of the cache used by the statements *)

Module CacheView.
Section View.
Context {Meta : Type} (json_loads : string -> option Meta) (folder : path).

(** The state after making the per-key directory. *)
Definition after_mkdir (s : St) : St :=
  if is_dir (st_fs s) folder then s
  else set_fs (mkFS ({[folder]} ∪ fs_dirs (st_fs s)) (fs_files (st_fs s))) s.

(** The reads after a hit: the completion, the metadata, and its JSON. *)
Definition load_outcome (fs : FS) : res (Response Meta) :=
  match read_result fs (path_join folder "completion.txt") with
  | Err e => Err e
  | Ok completion =>
      match read_result fs (path_join folder "metadata.json") with
      | Err e => Err e
      | Ok metadata_text =>
          match json_loads metadata_text with
          | None => Err JSONDecodeError
          | Some metadata => Ok (mkResponse (Some completion) metadata)
          end
      end
  end.

End View.
End CacheView.

(** ** Instrumentation for the loop statements *)

Module Instrument.

(** [issue] with a log of every issuance, in order: the query and what the
    model client returned for it. *)
Definition logged {Meta Sigma : Type} (issue : Query -> M Sigma (Response Meta))
  : Query -> M (Sigma * list (Query * res (Response Meta))) (Response Meta) :=
  fun query '(s, log) =>
    let (s', r) := issue query s in ((s', (log ++ [(query, r)])%list), r).

End Instrument.

(** ** Concrete clients used by the examples *)

Module Demo.

(** A canned model answering ["Hi!"], caching under [cache/], with
    [{}] as the metadata's JSON. *)
Definition canned (cache_only : bool) : PretrainedLargeModel unit := {|
  get_id := "canned";
  model_cache_dir := ["cache"];
  use_cache_only := cache_only;
  run_query := fun _ _ => Ok (mkResponse (Some "Hi!") tt)
|}.

Definition dumps (_ : unit) : string := "{}".
Definition loads (t : string) : option unit := if String.eqb t "{}" then Some tt else None.

Definition canned_query (cache_only : bool) : M St (Response unit) :=
  query dumps loads prompt (canned cache_only) "Hello!" None None.

(** An empty file system, and one where an earlier process cached the
    query: the folder [cache/canned_Hello!] with its three files. *)
Definition empty_st : St := mkSt (mkFS ∅ ∅) 0.

Definition cached_st : St :=
  let folder := ["cache"; "canned_Hello!"] in
  mkSt (mkFS {[ ["cache"]; folder ]}
             (<[ (folder ++ ["prompt.txt"])%list := "Hello!" ]>
              (<[ (folder ++ ["completion.txt"])%list := "Hi!" ]>
               (<[ (folder ++ ["metadata.json"])%list := "{}" ]> ∅)))) 0.

(** A model client that answers every query with a fenced block of its
    prompt, and a check that always asks again. *)
Definition echo_issue (query : Query) : M unit (Response unit) :=
  ret (mkResponse (Some ("```python" ++ nl ++ prompt query ++ nl ++ "```")) tt).

Definition always_reject : @RepromptCheck unit :=
  fun query _ => Ok (Some (mkQuery (prompt query ++ " again") None None)).

End Demo.

(** ** [utils.consistent_hash] *)

Module Hashing.

(** The value of a hexadecimal digit, in either case. *)
Definition hex_digit (c : ascii) : option Z :=
  let n := Z.of_nat (nat_of_ascii c) in
  if (48 <=? n)%Z && (n <=? 57)%Z then Some (n - 48)%Z
  else if (97 <=? n)%Z && (n <=? 102)%Z then Some (n - 87)%Z
  else if (65 <=? n)%Z && (n <=? 70)%Z then Some (n - 55)%Z
  else None.

Fixpoint int_base16_go (acc : Z) (s : string) : option Z :=
  match s with
  | EmptyString => Some acc
  | String c s' =>
      match hex_digit c with
      | Some d => int_base16_go (16 * acc + d)%Z s'
      | None => None
      end
  end.

(** [int(s, 16)] on a non-empty string of hexadecimal digits, and
    [ValueError] on the empty string.  Of the other inputs Python also
    accepts a sign, a [0x] prefix, underscores and surrounding whitespace,
    where this model raises; [hexdigest] never produces them. *)
Definition int_base16 (s : string) : res Z :=
  match s with
  | EmptyString => Err (ValueError "invalid literal for int() with base 16: ''")
  | _ =>
      match int_base16_go 0 s with
      | Some z => Ok z
      | None => Err (ValueError "invalid literal for int() with base 16")
      end
  end.

(** What [hashlib.sha256(...).hexdigest()] returns: 64 lowercase
    hexadecimal digits. *)
Definition is_hexdigest (s : string) : bool :=
  Nat.eqb (String.length s) 64 &&
  forallb (fun c => let n := nat_of_ascii c in
                    (Nat.leb 48 n && Nat.leb n 57) || (Nat.leb 97 n && Nat.leb n 102))
          (list_ascii_of_string s).

Section ConsistentHash.

(** [repr(obj)], and [hashlib.sha256(s.encode("utf-8")).hexdigest()]. *)
Context {A : Type} (repr : A -> string) (sha256_hexdigest : string -> string).

(** [consistent_hash(obj)] *)
Definition consistent_hash (obj : A) : res Z :=
  let obj_str := repr obj in
  let hash_hex := sha256_hexdigest obj_str in
  match int_base16 hash_hex with
  | Err e => Err e
  | Ok hash_int =>
      Ok (if (hash_int <? 2 ^ 63)%Z then hash_int else (hash_int - 2 ^ 6)%Z)
  end.

End ConsistentHash.

End Hashing.

(** ** [code.py]: [FunctionOutputRepromptCheck] *)

Module OutputCheck.
Section FunctionOutput.

(** [create_reprompt_from_error_message] as before; [run fn fn_in] is
    [fn.run( *fn_in)], what the synthesized function returns or raises on
    an input (the temporary file and the module it loads are not
    modelled); [str_in] and [str_out] format an input and an output in an
    f-string. *)
Context {Meta Arg Out : Type}
  (create_reprompt_from_error_message : Query -> Response Meta -> string -> Query)
  (run : SynthesizedPythonFunction -> Arg -> res Out)
  (str_in : Arg -> string) (str_out : Out -> string).

(** A check function returns a truth value or raises. *)
Record FunctionOutputRepromptCheck := mkFunctionOutputRepromptCheck {
  _function_name : string;
  _inputs : list Arg;
  _output_check_fns : list (Out -> res bool)
}.

(** [FunctionOutputRepromptCheck(function_name, inputs, output_check_fns)] *)
Definition FunctionOutputRepromptCheck_init (function_name : string) (inputs : list Arg)
    (output_check_fns : list (Out -> res bool)) : res FunctionOutputRepromptCheck :=
  if Nat.eqb (length inputs) (length output_check_fns) then
    Ok (mkFunctionOutputRepromptCheck function_name inputs output_check_fns)
  else Err AssertionError.

Definition invalid_output_msg (function_name : string) (fn_in : Arg) (fn_out : Out) : string :=
  "Given the input " ++ str_in fn_in ++ ", the output of " ++ function_name ++
  " was " ++ str_out fn_out ++ ", which is invalid".

(** The loop [for fn_in, check_fn in zip(inputs, output_check_fns,
    strict=True)]; [zip] raises [ValueError] when one list runs out first. *)
Fixpoint check_outputs (function_name : string) (query : Query) (response : Response Meta)
    (fn : SynthesizedPythonFunction) (inputs : list Arg) (check_fns : list (Out -> res bool))
  : res (option Query) :=
  match inputs, check_fns with
  | [], [] => Ok None
  | [], _ :: _ => Err (ValueError "zip() argument 2 is longer than argument 1")
  | _ :: _, [] => Err (ValueError "zip() argument 2 is shorter than argument 1")
  | fn_in :: inputs', check_fn :: check_fns' =>
      match run fn fn_in with
      | Err e => Err e
      | Ok fn_out =>
          match check_fn fn_out with
          | Err e => Err e
          | Ok true => check_outputs function_name query response fn inputs' check_fns'
          | Ok false =>
              let error_msg := invalid_output_msg function_name fn_in fn_out in
              Ok (Some (create_reprompt_from_error_message query response error_msg))
          end
      end
  end.

(** [FunctionOutputRepromptCheck.get_reprompt] *)
Definition get_reprompt (self : FunctionOutputRepromptCheck) : @RepromptCheck Meta :=
  fun query response =>
  match parse_python_code_from_text_opt (text response) with
  | Err e => Err e
  | Ok None => Err AssertionError
  | Ok (Some python_code) =>
      let fn := mkSynthesizedPythonFunction (_function_name self) python_code in
      check_outputs (_function_name self) query response fn
        (_inputs self) (_output_check_fns self)
  end.

End FunctionOutput.
End OutputCheck.

(** ** [models.py]: [OpenAIModel] *)

Module OpenAI.
Section OpenAIModel.
Context {Meta : Type}.

(** What [_run_query] reads of a chat completion: each choice's
    [message.content], and [usage.to_dict()] ([None] when [usage] is). *)
Record ChatCompletion := mkChatCompletion {
  choices : list (option string);
  usage : option Meta
}.

(** [openai.OpenAI()]: [Some e] when constructing the client raises [e];
    and [client.chat.completions.create(messages=..., model=..., **kwargs)]
    given the number of requests made before, raising or returning a
    completion. *)
Context (client_error : option exn)
  (create : nat -> list (list (string * string)) -> string -> list (string * string)
            -> res ChatCompletion).

Record OpenAIModel := mkOpenAIModel {
  _model_name : string;
  openai_cache_dir : path;
  openai_use_cache_only : bool
}.

(** [OpenAIModel.__init__], given the names in [os.environ]. *)
Definition OpenAIModel_init (environ : list string) (model_name : string)
    (cache_dir : path) (use_cache_only : bool) : M St OpenAIModel :=
  if existsb (String.eqb "OPENAI_API_KEY") environ
  then ret (mkOpenAIModel model_name cache_dir use_cache_only)
  else raise AssertionError.

(** [OpenAIModel._run_query(query)], after [calls] earlier requests;
    passing [**kwargs] with a key ["messages"] or ["model"] next to those
    keyword arguments raises [TypeError]. *)
Definition OpenAIModel_run_query (self : OpenAIModel) (calls : nat) (query : Query)
  : res (Response Meta) :=
  if match imgs query with Some (_ :: _) => true | _ => false end
  then Err AssertionError else
  match client_error with
  | Some e => Err e
  | None =>
      let messages := [[("role", "user"); ("content", prompt query); ("type", "text")]] in
      let kwargs := match hyperparameters query with Some h => h | None => [] end in
      if existsb (fun kv => String.eqb (fst kv) "messages" || String.eqb (fst kv) "model") kwargs
      then Err TypeError else
      match create calls messages (_model_name self) kwargs with
      | Err e => Err e
      | Ok completion =>
          if negb (Nat.eqb (length (choices completion)) 1) then Err AssertionError else
          match choices completion, usage completion with
          | text :: _, Some metadata => Ok (mkResponse text metadata)
          | _, _ => Err AssertionError
          end
      end
  end.

End OpenAIModel.
End OpenAI.

(** ** Abstract base classes *)

Module Abc.

(** A class statement: its name and the methods its body defines, each
    flagged when decorated with [@abc.abstractmethod]. *)
Record PyClass := mkPyClass {
  cls_name : string;
  cls_methods : list (string * bool)
}.

(** Whether the method [name] resolves, along the MRO, to an abstract one. *)
Fixpoint resolve (mro : list PyClass) (name : string) : option bool :=
  match mro with
  | [] => None
  | c :: mro' =>
      match List.find (fun m => String.eqb (fst m) name) (cls_methods c) with
      | Some (_, abstract) => Some abstract
      | None => resolve mro' name
      end
  end.

(** [cls.__abstractmethods__] as [ABCMeta] computes it: the names declared
    abstract in the class or a base that still resolve to an abstract
    method. *)
Definition abstractmethods (mro : list PyClass) : list string :=
  List.filter (fun name => match resolve mro name with Some true => true | _ => false end)
    (remove_dups (flat_map (fun c => map fst (List.filter snd (cls_methods c))) mro)).

(** [cls(...)]: [object.__new__] raises [TypeError] while the class has
    abstract methods, before [__init__] runs. *)
Definition instantiate {S A} (mro : list PyClass) (init : M S A) : M S A :=
  match abstractmethods mro with
  | [] => init
  | _ :: _ => raise TypeError
  end.

Definition ABC := mkPyClass "ABC" [].

Definition PretrainedLargeModel_cls := mkPyClass "PretrainedLargeModel"
  [("__init__", false); ("get_id", true); ("_run_query", true);
   ("query", false); ("_get_cache_dir", false)].

Definition OpenAIModel_cls := mkPyClass "OpenAIModel"
  [("__init__", false); ("_run_query", false)].

Definition CannedResponseModel_cls := mkPyClass "CannedResponseModel"
  [("__init__", false); ("get_id", false); ("_run_query", false)].

Definition PretrainedLargeModelCache_cls := mkPyClass "PretrainedLargeModelCache"
  [("try_load_response", true); ("save", true)].

Definition FilePretrainedLargeModelCache_cls := mkPyClass "FilePretrainedLargeModelCache"
  [("__init__", false); ("_get_cache_dir_for_query", false);
   ("try_load_response", false); ("save", false)].

(** The MROs, without [object] (which defines no abstract method). *)
Definition OpenAIModel_mro := [OpenAIModel_cls; PretrainedLargeModel_cls; ABC].
Definition CannedResponseModel_mro := [CannedResponseModel_cls; PretrainedLargeModel_cls; ABC].
Definition FilePretrainedLargeModelCache_mro :=
  [FilePretrainedLargeModelCache_cls; PretrainedLargeModelCache_cls; ABC].

End Abc.

(** ** Character classes used by the statements *)

Module Chars.

(** No backtick in [s]. *)
Definition no_backtick (s : string) : bool :=
  forallb (fun c => negb (Ascii.eqb c "`"%char)) (list_ascii_of_string s).

(** No ['/'] in [s]. *)
Definition slash_free (s : string) : bool :=
  forallb (fun c => negb (Ascii.eqb c "/"%char)) (list_ascii_of_string s).

End Chars.

(** * Properties *)

(** ** Substring search *)

Module Search.
Import Occurs.

Lemma prefix_empty_r (pat : string) : pat <> "" -> String.prefix pat "" = false.
Proof. destruct pat; [congruence | reflexivity]. Qed.

Lemma find_eq (pat s : string) :
  PyStr.find pat s =
  if String.prefix pat s then Some 0 else
  match s with
  | EmptyString => None
  | String _ s' => option_map S (PyStr.find pat s')
  end.
Proof. destruct s; reflexivity. Qed.

Lemma find_some (pat s : string) (i : nat) :
  PyStr.find pat s = Some i -> first_occurrence pat s i.
Proof.
  revert i; induction s as [|c s IH]; intros i Hf; rewrite find_eq in Hf;
    destruct (String.prefix pat _) eqn:Hp.
  - injection Hf as <-. split; [exact Hp | intros j Hj; lia].
  - discriminate.
  - injection Hf as <-. split; [exact Hp | intros j Hj; lia].
  - destruct (PyStr.find pat s) as [i'|] eqn:Hf'; simpl in Hf; [|discriminate].
    injection Hf as <-. destruct (IH i' eq_refl) as [Ho Hfirst]. split; [exact Ho|].
    intros [|j] Hj; [exact Hp|]. apply Hfirst. lia.
Qed.

Lemma find_none (pat s : string) :
  pat <> "" -> PyStr.find pat s = None -> forall i, occurs_at pat s i = false.
Proof.
  intros Hne. induction s as [|c s IH]; intros Hf i; rewrite find_eq in Hf;
    destruct (String.prefix pat _) eqn:Hp; try discriminate.
  - unfold occurs_at. destruct i; simpl; apply prefix_empty_r; exact Hne.
  - destruct (PyStr.find pat s) eqn:Hf'; simpl in Hf; [discriminate|].
    destruct i as [|i]; [exact Hp|]. apply IH. reflexivity.
Qed.

Lemma first_occurrence_unique (pat s : string) (i j : nat) :
  first_occurrence pat s i -> first_occurrence pat s j -> i = j.
Proof.
  intros [Hi Fi] [Hj Fj].
  destruct (Nat.lt_trichotomy i j) as [H|[H|H]]; [| exact H |].
  - rewrite (Fj i H) in Hi. discriminate.
  - rewrite (Fi j H) in Hj. discriminate.
Qed.

Lemma find_first (pat s : string) (i : nat) :
  PyStr.find pat s = Some i <-> first_occurrence pat s i.
Proof.
  split; [apply find_some|]. intros Hocc.
  destruct (PyStr.find pat s) as [i'|] eqn:Hf.
  - f_equal. apply (first_occurrence_unique pat s); [apply find_some; exact Hf | exact Hocc].
  - exfalso. destruct Hocc as [Hi _].
    assert (Hne : pat <> "").
    { intros ->. revert Hf. clear. destruct s; simpl; discriminate. }
    rewrite (find_none pat s Hne Hf i) in Hi. discriminate.
Qed.

Lemma find_absent (pat s : string) :
  pat <> "" -> PyStr.find pat s = None <-> forall i, occurs_at pat s i = false.
Proof.
  intros Hne. split; [apply find_none; exact Hne|]. intros Hno.
  destruct (PyStr.find pat s) as [i|] eqn:Hf; [|reflexivity].
  apply find_some in Hf. destruct Hf as [Hi _]. rewrite Hno in Hi. discriminate.
Qed.

End Search.

(** ** Code extraction *)

Module Extraction.
Import Occurs Search.

Lemma take_all (s : string) : PyStr.take (String.length s) s = s.
Proof. induction s as [|c s IH]; simpl; [reflexivity | rewrite IH; reflexivity]. Qed.

(** [parse_python_code_from_text] as a characterised scan: the case split
    of the source, on the first occurrences. *)
Lemma parse_python_code_from_text_cases (t : string) :
  parse_python_code_from_text t =
  match PyStr.find python_code_prefix t with
  | None => Ok None
  | Some i =>
      let rest := PyStr.drop (i + 9) t in
      match PyStr.find fence rest with
      | Some k => Ok (Some (PyStr.take k rest))
      | None => Ok (Some rest)
      end
  end.
Proof.
  unfold parse_python_code_from_text, PyStr.contains, py_index.
  destruct (PyStr.find python_code_prefix t) as [i|]; [|reflexivity].
  assert (Hl : String.length python_code_prefix = 9) by reflexivity. rewrite Hl.
  destruct (PyStr.find fence _); [reflexivity|]. rewrite take_all. reflexivity.
Qed.

Lemma parse_python_code_from_llm_response_text (t : string) :
  parse_python_code_from_llm_response t =
  match parse_python_code_from_text t with
  | Ok (Some c) => Ok c
  | Ok None => Ok t
  | Err e => Err e
  end.
Proof.
  unfold parse_python_code_from_llm_response, parse_python_code_from_text,
    PyStr.contains, py_index.
  destruct (PyStr.find python_code_prefix t) as [i|]; [|reflexivity].
  destruct (PyStr.find fence _); reflexivity.
Qed.

(** C6 (as amended): [parse_python_code_from_text] returns [None] exactly
    when ["```python"] does not occur; otherwise the text after its first
    occurrence up to the first following ["```"], or to the end of the text,
    with no trimming: ["```python\nX\n```"] gives ["\nX\n"] and
    ["```python\nX"] gives ["\nX"].  The [utils.py] variant returns the
    whole text where this one returns [None]. *)
Theorem parse_python_code_first_block (t : string) :
  (parse_python_code_from_text t = Ok None <->
     forall i, occurs_at python_code_prefix t i = false) /\
  (forall c, parse_python_code_from_text t = Ok (Some c) <->
     exists i, first_occurrence python_code_prefix t i /\
       let rest := PyStr.drop (i + String.length python_code_prefix) t in
       ((exists k, first_occurrence fence rest k /\ c = PyStr.take k rest) \/
        ((forall k, occurs_at fence rest k = false) /\ c = rest))) /\
  parse_python_code_from_text ("```python" ++ nl ++ "X" ++ nl ++ "```")
    = Ok (Some (nl ++ "X" ++ nl)) /\
  parse_python_code_from_text ("```python" ++ nl ++ "X") = Ok (Some (nl ++ "X")) /\
  ((forall i, occurs_at python_code_prefix t i = false) ->
     parse_python_code_from_llm_response t = Ok t) /\
  (forall c, parse_python_code_from_text t = Ok (Some c) ->
     parse_python_code_from_llm_response t = Ok c).
Proof.
  assert (Hpne : python_code_prefix <> "") by discriminate.
  assert (Hfne : fence <> "") by discriminate.
  change (String.length python_code_prefix) with 9.
  split; [|split; [|split; [reflexivity|split; [reflexivity|]]]].
  - rewrite parse_python_code_from_text_cases.
    destruct (PyStr.find python_code_prefix t) as [i|] eqn:H.
    + apply find_first in H. destruct H as [Hi _]. split.
      * cbv zeta. destruct (PyStr.find fence (PyStr.drop (i + 9) t)); intros E; discriminate E.
      * intros Hall. rewrite Hall in Hi. discriminate.
    + split; [intros _; apply find_absent; assumption | reflexivity].
  - intros c. rewrite parse_python_code_from_text_cases.
    destruct (PyStr.find python_code_prefix t) as [i|] eqn:H.
    + apply find_first in H. cbv zeta.
      destruct (PyStr.find fence (PyStr.drop (i + 9) t)) as [k|] eqn:H2.
      * apply find_first in H2. split.
        -- intros E. injection E as <-. exists i. split; [exact H|]. left. exists k. auto.
        -- intros (i' & Hi' & Hc). rewrite (first_occurrence_unique _ _ _ _ Hi' H) in Hc.
           destruct Hc as [(k' & Hk' & ->) | (Hall & _)].
           ++ rewrite (first_occurrence_unique _ _ _ _ Hk' H2). reflexivity.
           ++ destruct H2 as [Hk _]. rewrite Hall in Hk. discriminate.
      * pose proof (proj1 (find_absent _ _ Hfne) H2) as H2'; clear H2; rename H2' into H2. split.
        -- intros E. injection E as <-. exists i. split; [exact H|]. right. auto.
        -- intros (i' & Hi' & Hc). rewrite (first_occurrence_unique _ _ _ _ Hi' H) in Hc.
           destruct Hc as [(k' & [Hk' _] & _) | (_ & ->)]; [|reflexivity].
           rewrite H2 in Hk'. discriminate.
    + pose proof (proj1 (find_absent _ _ Hpne) H) as H'; clear H; rename H' into H. split; [discriminate|].
      intros (i & [Hi _] & _). rewrite H in Hi. discriminate.
  - split.
    + intros Hall. rewrite parse_python_code_from_llm_response_text,
        parse_python_code_from_text_cases.
      apply (proj2 (find_absent _ _ Hpne)) in Hall. rewrite Hall. reflexivity.
    + intros c Hc. rewrite parse_python_code_from_llm_response_text, Hc. reflexivity.
Qed.

(** C6 counterexample: on ["```python\nX\n```"] the extracted code is
    ["\nX\n"], not the trimmed ["X"]. *)
Lemma parse_python_code_not_trimmed :
  parse_python_code_from_text ("```python" ++ nl ++ "X" ++ nl ++ "```") <> Ok (Some "X").
Proof. vm_compute. discriminate. Qed.

End Extraction.

(** ** The syntax check *)

Module Checks.

Lemma string_app_assoc (a b c : string) : ((a ++ b) ++ c = a ++ b ++ c)%string.
Proof.
  induction a as [|x a IH]; [reflexivity|].
  change (String x ((a ++ b) ++ c) = String x (a ++ b ++ c))%string.
  rewrite IH. reflexivity.
Qed.

Lemma py_join_snoc (sep : string) (l : list string) (x : string) :
  exists pre, py_join sep (l ++ [x]) = (pre ++ x)%string.
Proof.
  induction l as [|y l IH]; simpl.
  - exists ""%string. reflexivity.
  - destruct IH as [pre IH]. destruct (l ++ [x])%list as [|z l'] eqn:E.
    + destruct l; discriminate.
    + exists (y ++ sep ++ pre)%string. rewrite IH, !string_app_assoc. reflexivity.
Qed.

(** The error message built from a [SyntaxError] ends with its
    ["<class name>: <detail>"] line. *)
Lemma syntax_error_msg_detail (e : SyntaxErr) :
  exists pre, py_join nl (format_exception e) =
    (pre ++ syntax_error_class_name (se_class e) ++ ": " ++ syntax_error_detail e ++ nl)%string.
Proof.
  unfold format_exception. rewrite app_assoc. apply py_join_snoc.
Qed.

Section SyntaxCheck.
Context {Meta : Type}
  (create_reprompt_from_error_message : Query -> Response Meta -> string -> Query)
  (ast_parse : string -> parse_outcome).

Local Abbreviation check := (SyntaxRepromptCheck create_reprompt_from_error_message ast_parse).

(** C7: for a response with string text, the syntax check accepts exactly
    when a ```python block is extracted and [ast.parse] accepts it; a
    rejection's follow-up is built from the "no code" message, or from an
    error message ending with the line [traceback] prints for the
    [SyntaxError] (or [IndentationError], [TabError]): its class name and
    its own message. *)
Theorem syntax_check_accepts_iff_parses (query : Query) (t : string) (m : Meta) :
  let response := mkResponse (Some t) m in
  (check query response = Ok None <->
     exists c, parse_python_code_from_text t = Ok (Some c) /\ ast_parse c = ParseOk) /\
  (forall follow_up, check query response = Ok (Some follow_up) ->
     (parse_python_code_from_text t = Ok None /\
      follow_up = create_reprompt_from_error_message query response no_code_msg) \/
     (exists c e error_msg, parse_python_code_from_text t = Ok (Some c) /\
        ast_parse c = ParseSyntaxError e /\
        follow_up = create_reprompt_from_error_message query response error_msg /\
        exists pre, error_msg =
          (pre ++ syntax_error_class_name (se_class e) ++ ": " ++
           syntax_error_detail e ++ nl)%string)).
Proof.
  cbv zeta. unfold SyntaxRepromptCheck. simpl.
  destruct (parse_python_code_from_text t) as [[c|]|err] eqn:Hp.
  - destruct (ast_parse c) as [|e|x] eqn:Ha; split.
    + split; [intros _; exists c; auto | reflexivity].
    + intros f E. discriminate.
    + split; [discriminate | intros (c' & E & Ha'); injection E as <-; congruence].
    + intros f E. injection E as <-. right. exists c, e, (py_join nl (format_exception e)).
      repeat split; auto. apply syntax_error_msg_detail.
    + split; [discriminate | intros (c' & E & Ha'); injection E as <-; congruence].
    + intros f E. discriminate.
  - split.
    + split; [discriminate | intros (c' & E & _); discriminate].
    + intros f E. injection E as <-. left. auto.
  - split.
    + split; [discriminate | intros (c' & E & _); discriminate].
    + intros f E. discriminate.
Qed.

(** C9 (as amended): on a response whose text is [None], the syntax check
    raises [TypeError] (from [python_code_prefix in None]) instead of
    returning a follow-up query. *)
Theorem syntax_check_none_text_raises (query : Query) (m : Meta) :
  check query (mkResponse None m) = Err TypeError.
Proof. reflexivity. Qed.

End SyntaxCheck.

(** C9 counterexample: a [None] completion text makes the check raise, so
    no "no code found" follow-up is produced. *)
Lemma syntax_check_none_text_crashes :
  let query := mkQuery "Write a function" None None in
  let response := mkResponse None tt in
  SyntaxRepromptCheck (fun q _ _ => q) (fun _ => ParseOk) query response = Err TypeError /\
  SyntaxRepromptCheck (fun q _ _ => q) (fun _ => ParseOk) query response
    <> Ok (Some ((fun q (_ : Response unit) (_ : string) => q) query response no_code_msg)).
Proof. split; [reflexivity | discriminate]. Qed.

(** An [IndentationError] (caught by [except SyntaxError]) is reported
    under its own class name. *)
Lemma syntax_check_indentation_error :
  let dq := String (ascii_of_nat 34) EmptyString in
  let location := ("  File " ++ dq ++ "<unknown>" ++ dq ++ ", line 2" ++ nl)%string in
  let e := mkSyntaxErr IndentationError_
             "expected an indented block after function definition on line 1" true
             [location] [] in
  py_join nl (format_exception e) =
    (location ++ nl ++
     "IndentationError: expected an indented block after function definition on line 1" ++
     nl)%string.
Proof. reflexivity. Qed.

End Checks.

(** ** File system operations *)

Module FSFacts.

(** [fs'] has every directory and every file of [fs]. *)
Definition fs_le (fs fs' : FS) : Prop :=
  fs_dirs fs ⊆ fs_dirs fs' /\
  forall p, is_file fs p = true -> is_file fs' p = true.

Lemma fs_le_refl (fs : FS) : fs_le fs fs.
Proof. split; [set_solver | auto]. Qed.

Lemma fs_le_trans (a b c : FS) : fs_le a b -> fs_le b c -> fs_le a c.
Proof. intros [Hd1 Hf1] [Hd2 Hf2]. split; [set_solver | auto]. Qed.

Lemma is_dir_le (fs fs' : FS) (p : path) :
  fs_le fs fs' -> is_dir fs p = true -> is_dir fs' p = true.
Proof.
  intros [Hd _]. unfold is_dir. rewrite !orb_true_iff, !bool_decide_eq_true.
  intros [H|H]; [left | right; set_solver]; assumption.
Qed.

Lemma path_exists_le (fs fs' : FS) (p : path) :
  fs_le fs fs' -> path_exists fs p = true -> path_exists fs' p = true.
Proof.
  intros Hle. unfold path_exists. rewrite !orb_true_iff. intros [H|H].
  - left. eapply is_dir_le; eassumption.
  - right. apply (proj2 Hle). exact H.
Qed.

Lemma mkdir_success (p : path) (s : St) :
  mkdir_would_succeed (st_fs s) p = true ->
  mkdir_exist_ok p s =
  (if is_dir (st_fs s) p then s
   else set_fs (mkFS ({[p]} ∪ fs_dirs (st_fs s)) (fs_files (st_fs s))) s, Ok tt).
Proof.
  unfold mkdir_would_succeed, mkdir_exist_ok.
  destruct (is_dir _ p); [reflexivity|]. simpl.
  destruct (is_file _ p); [discriminate|]. simpl. intros ->. reflexivity.
Qed.

Lemma mkdir_failure (p : path) (s : St) :
  mkdir_would_succeed (st_fs s) p = false ->
  exists e, mkdir_exist_ok p s = (s, Err e) /\ e <> ResponseNotFound.
Proof.
  unfold mkdir_would_succeed, mkdir_exist_ok, no_parent_error.
  destruct (is_dir _ p); [discriminate|]. simpl.
  destruct (is_file _ p); simpl; [intros _; eexists; split; [reflexivity | discriminate]|].
  intros ->. eexists. split; [reflexivity|].
  destruct (existsb _ _); discriminate.
Qed.

(** A failing [mkdir] raises one of its [OSError]s. *)
Lemma mkdir_failure_oserror (p : path) (s : St) :
  mkdir_would_succeed (st_fs s) p = false ->
  exists e, mkdir_exist_ok p s = (s, Err e) /\
            In e [FileExistsError; FileNotFoundError; NotADirectoryError].
Proof.
  unfold mkdir_would_succeed, mkdir_exist_ok, no_parent_error.
  destruct (is_dir _ p); [discriminate|]. simpl.
  destruct (is_file _ p); simpl; [intros _; eexists; split; [reflexivity | simpl; auto]|].
  intros ->. eexists. split; [reflexivity|].
  destruct (existsb _ _); simpl; auto.
Qed.

Lemma mkdir_files (p : path) (s s' : St) (r : res unit) :
  mkdir_exist_ok p s = (s', r) -> fs_files (st_fs s') = fs_files (st_fs s).
Proof.
  unfold mkdir_exist_ok.
  destruct (is_dir _ p); [intros [= <- _]; reflexivity|].
  destruct (is_file _ p); [intros [= <- _]; reflexivity|].
  destruct (is_dir _ (parent p)); intros [= <- _]; reflexivity.
Qed.

Lemma mkdir_calls (p : path) (s s' : St) (r : res unit) :
  mkdir_exist_ok p s = (s', r) -> st_calls s' = st_calls s.
Proof.
  unfold mkdir_exist_ok.
  destruct (is_dir _ p); [intros [= <- _]; reflexivity|].
  destruct (is_file _ p); [intros [= <- _]; reflexivity|].
  destruct (is_dir _ (parent p)); intros [= <- _]; reflexivity.
Qed.

Lemma mkdir_le (p : path) (s s' : St) (r : res unit) :
  mkdir_exist_ok p s = (s', r) -> fs_le (st_fs s) (st_fs s').
Proof.
  unfold mkdir_exist_ok.
  destruct (is_dir _ p); [intros [= <- _]; apply fs_le_refl|].
  destruct (is_file _ p); [intros [= <- _]; apply fs_le_refl|].
  destruct (is_dir _ (parent p)); intros [= <- _]; [|apply fs_le_refl].
  split; [simpl; set_solver | intros q Hq; exact Hq].
Qed.

Lemma mkdir_ok_is_dir (p : path) (s s' : St) :
  mkdir_exist_ok p s = (s', Ok tt) -> is_dir (st_fs s') p = true.
Proof.
  unfold mkdir_exist_ok.
  destruct (is_dir _ p) eqn:Hd; [intros [= <-]; exact Hd|].
  destruct (is_file _ p); [discriminate|].
  destruct (is_dir _ (parent p)); [|discriminate]. intros [= <-].
  unfold is_dir. simpl. apply orb_true_iff. right. apply bool_decide_eq_true. set_solver.
Qed.

Lemma read_text_state (p : path) (s s' : St) (r : res string) :
  read_text p s = (s', r) -> s' = s.
Proof. unfold read_text. intros [= <- _]. reflexivity. Qed.

(** [f.read()] returns the decoded text of the file, or raises
    [UnicodeDecodeError] or an [OSError]. *)
Lemma read_text_result (p : path) (s : St) :
  read_text p s = (s, read_result (st_fs s) p).
Proof. reflexivity. Qed.

Lemma read_result_not_rnf (fs : FS) (p : path) : read_result fs p <> Err ResponseNotFound.
Proof.
  unfold read_result, decode_text, no_parent_error.
  destruct (fs_files fs !! p); [destruct (utf8_valid _); discriminate|].
  destruct (is_dir _ _); [discriminate|]. destruct (existsb _ _); discriminate.
Qed.

Lemma read_result_not_type_error (fs : FS) (p : path) : read_result fs p <> Err TypeError.
Proof.
  unfold read_result, decode_text, no_parent_error.
  destruct (fs_files fs !! p); [destruct (utf8_valid _); discriminate|].
  destruct (is_dir _ _); [discriminate|]. destruct (existsb _ _); discriminate.
Qed.



Lemma no_parent_error_not_rnf (fs : FS) (p : path) : no_parent_error fs p <> ResponseNotFound.
Proof. unfold no_parent_error. destruct (existsb _ _); discriminate. Qed.

Lemma write_text_calls (p : path) (x : option string) (s s' : St) (r : res unit) :
  write_text p x s = (s', r) -> st_calls s' = st_calls s.
Proof.
  unfold write_text.
  destruct (is_dir _ p); [intros [= <- _]; reflexivity|].
  destruct (is_dir _ (parent p)); [|intros [= <- _]; reflexivity].
  destruct x; intros [= <- _]; reflexivity.
Qed.

Lemma write_text_le (p : path) (x : option string) (s s' : St) (r : res unit) :
  write_text p x s = (s', r) -> fs_le (st_fs s) (st_fs s').
Proof.
  unfold write_text.
  destruct (is_dir _ p); [intros [= <- _]; apply fs_le_refl|].
  destruct (is_dir _ (parent p)); [|intros [= <- _]; apply fs_le_refl].
  assert (Hins : forall v, fs_le (st_fs s)
            (st_fs (set_fs (mkFS (fs_dirs (st_fs s)) (<[p:=v]> (fs_files (st_fs s)))) s))).
  { intros v. split; [simpl; set_solver|]. intros q. unfold is_file. simpl.
    destruct (decide (p = q)) as [<-|Hne].
    - rewrite lookup_insert_eq. reflexivity.
    - rewrite lookup_insert_ne by exact Hne. auto. }
  destruct x; intros [= <- _]; apply Hins.
Qed.

Lemma write_text_ok_file (p : path) (x : option string) (s s' : St) :
  write_text p x s = (s', Ok tt) -> is_file (st_fs s') p = true.
Proof.
  unfold write_text.
  destruct (is_dir _ p); [discriminate|].
  destruct (is_dir _ (parent p)); [|discriminate].
  destruct x; [|discriminate]. intros [= <-].
  unfold is_file. simpl. rewrite lookup_insert_eq. reflexivity.
Qed.

End FSFacts.

(** ** The file cache *)

Module CacheFacts.
Import FSFacts CacheView.

Section Lookup.
Context {Meta : Type} (json_loads : string -> option Meta)
  (get_readable_id : Query -> string)
  (self : FilePretrainedLargeModelCache) (query : Query) (model_id : string).

Local Abbreviation folder := (cache_folder get_readable_id self query model_id).
Local Abbreviation lookup := (try_load_response json_loads get_readable_id self query model_id).

Lemma try_load_response_dir_ok (s : St) :
  mkdir_would_succeed (st_fs s) folder = true ->
  lookup s =
  (after_mkdir folder s,
   if path_exists (st_fs (after_mkdir folder s)) (path_join folder "prompt.txt")
   then load_outcome json_loads folder (st_fs (after_mkdir folder s))
   else Err ResponseNotFound).
Proof.
  intros W. unfold try_load_response, _get_cache_dir_for_query. cbv zeta.
  unfold bind at 1 2. rewrite (mkdir_success _ _ W). fold (after_mkdir folder s).
  unfold ret at 1. cbv iota beta.
  unfold bind, ret, exists_path, raise, lift.
  destruct (path_exists _ _); [|reflexivity]. cbn [negb].
  unfold read_text, load_outcome.
  destruct (read_result _ (path_join folder "completion.txt")); [|reflexivity].
  destruct (read_result _ (path_join folder "metadata.json")); [|reflexivity].
  unfold json_load. destruct (json_loads _); reflexivity.
Qed.

Lemma try_load_response_dir_fails (s : St) :
  mkdir_would_succeed (st_fs s) folder = false ->
  exists e, lookup s = (s, Err e) /\ e <> ResponseNotFound.
Proof.
  intros W. unfold try_load_response, _get_cache_dir_for_query. cbv zeta.
  unfold bind at 1 2. destruct (mkdir_failure _ _ W) as (e & -> & He). exists e. split; [reflexivity | exact He].
Qed.

Lemma load_outcome_not_rnf (fs : FS) : load_outcome json_loads folder fs <> Err ResponseNotFound.
Proof.
  unfold load_outcome.
  destruct (read_result fs (path_join folder "completion.txt")) as [c|e] eqn:R1;
    [|intros [= ->]; exact (read_result_not_rnf _ _ R1)].
  destruct (read_result fs (path_join folder "metadata.json")) as [mt|e] eqn:R2;
    [|intros [= ->]; exact (read_result_not_rnf _ _ R2)].
  destruct (json_loads _); discriminate.
Qed.

Lemma path_join_prompt (p : path) : path_join p "prompt.txt" = (p ++ ["prompt.txt"])%list.
Proof. reflexivity. Qed.


Lemma after_mkdir_calls (s : St) : st_calls (after_mkdir folder s) = st_calls s.
Proof. unfold after_mkdir. destruct (is_dir _ _); reflexivity. Qed.


(** C10: a lookup that raises [ResponseNotFound] has made the per-key
    directory (created it when it was not there) and changed no file. *)
Theorem try_load_miss_creates_dir (s s' : St) :
  lookup s = (s', Err ResponseNotFound) ->
  fs_dirs (st_fs s') =
    (if is_dir (st_fs s) folder then fs_dirs (st_fs s)
     else {[folder]} ∪ fs_dirs (st_fs s)) /\
  is_dir (st_fs s') folder = true /\
  fs_files (st_fs s') = fs_files (st_fs s) /\
  st_calls s' = st_calls s.
Proof.
  intros H. destruct (mkdir_would_succeed (st_fs s) folder) eqn:W.
  - rewrite (try_load_response_dir_ok _ W) in H. injection H as <- Hr.
    destruct (path_exists _ _); [exfalso; exact (load_outcome_not_rnf _ Hr)|].
    unfold after_mkdir. destruct (is_dir (st_fs s) folder) eqn:D.
    + repeat split; assumption.
    + repeat split. unfold is_dir. simpl. apply orb_true_iff. right.
      apply bool_decide_eq_true. set_solver.
  - destruct (try_load_response_dir_fails _ W) as (e & E & He).
    rewrite E in H. injection H as _ He'. congruence.
Qed.


End Lookup.

End CacheFacts.

(** *** Concrete lookups *)

Module CacheExamples.

(** C10 witness: with the cache directory present and nothing cached for
    the query, the lookup misses and creates [cache/canned_hi]. *)
Lemma try_load_miss_creates_dir_witness :
  let self := {| cache_cache_dir := ["cache"] |} in
  let query := mkQuery "hi" None None in
  let s := mkSt (mkFS {[ ["cache"] ]} ∅) 0 in
  let lookup := try_load_response (fun _ => Some tt) prompt self query "canned" in
  let s' := fst (lookup s) in
  lookup s = (s', Err ResponseNotFound) /\
  fs_dirs (st_fs s') =
    (if is_dir (st_fs s) (cache_folder prompt self query "canned") then fs_dirs (st_fs s)
     else {[cache_folder prompt self query "canned"]} ∪ fs_dirs (st_fs s)) /\
  is_dir (st_fs s') (cache_folder prompt self query "canned") = true /\
  fs_files (st_fs s') = fs_files (st_fs s) /\
  st_calls s' = st_calls s.
Proof.
  intros self query s lookup s'.
  assert (H : lookup s = (s', Err ResponseNotFound)) by (vm_compute; reflexivity).
  split; [exact H|].
  exact (CacheFacts.try_load_miss_creates_dir (fun _ => Some tt) prompt self query "canned" s s' H).
Defined.


(** Text mode reading: a cached completion ["a\r\nb"] is returned as
    ["a\nb"], and a completion that is not UTF-8 (the byte [0xff]) raises
    [UnicodeDecodeError]. *)
Lemma try_load_text_mode :
  let self := {| cache_cache_dir := ["cache"] |} in
  let query := mkQuery "hi" None None in
  let folder := ["cache"; "canned_hi"] in
  let st (completion : string) :=
    mkSt (mkFS {[ ["cache"]; folder ]}
               (<[ (folder ++ ["prompt.txt"])%list := "hi" ]>
                (<[ (folder ++ ["completion.txt"])%list := completion ]>
                 (<[ (folder ++ ["metadata.json"])%list := "{}" ]> ∅)))) 0 in
  snd (try_load_response (fun _ => Some tt) prompt self query "canned"
         (st ("a" ++ String CR (String LF "b"))%string))
    = Ok (mkResponse (Some ("a" ++ String LF "b")%string) tt) /\
  snd (try_load_response (fun _ => Some tt) prompt self query "canned"
         (st (String (ascii_of_nat 255) EmptyString)))
    = Err UnicodeDecodeError.
Proof. split; vm_compute; reflexivity. Qed.

End CacheExamples.

(** ** The model client *)

Module ClientFacts.
Import FSFacts.

(** A computation that makes no remote call and only adds directories and
    files. *)
Definition local {A} (m : M St A) : Prop :=
  forall s s' r, m s = (s', r) -> st_calls s' = st_calls s /\ fs_le (st_fs s) (st_fs s').

Lemma local_ret {A} (a : A) : local (ret a).
Proof. intros s s' r [= <- _]. split; [reflexivity | apply fs_le_refl]. Qed.

Lemma local_raise {A} (e : exn) : local (A := A) (raise e).
Proof. intros s s' r [= <- _]. split; [reflexivity | apply fs_le_refl]. Qed.

Lemma local_lift {A} (x : res A) : local (lift x).
Proof. intros s s' r [= <- _]. split; [reflexivity | apply fs_le_refl]. Qed.

Lemma local_bind {A B} (m : M St A) (k : A -> M St B) :
  local m -> (forall a, local (k a)) -> local (bind m k).
Proof.
  intros Hm Hk s s' r. unfold bind. destruct (m s) as [s1 [a|e]] eqn:E.
  - intros H. destruct (Hm _ _ _ E) as [C1 L1]. destruct (Hk a _ _ _ H) as [C2 L2].
    split; [congruence | eapply fs_le_trans; eassumption].
  - intros [= <- _]. exact (Hm _ _ _ E).
Qed.

Lemma local_mkdir (p : path) : local (mkdir_exist_ok p).
Proof. intros s s' r H. split; [eapply mkdir_calls | eapply mkdir_le]; exact H. Qed.

Lemma local_write (p : path) (x : option string) : local (write_text p x).
Proof. intros s s' r H. split; [eapply write_text_calls | eapply write_text_le]; exact H. Qed.

Lemma local_read (p : path) : local (read_text p).
Proof.
  intros s s' r H. apply read_text_state in H. subst. split; [reflexivity | apply fs_le_refl].
Qed.

Lemma local_exists (p : path) : local (exists_path p).
Proof. intros s s' r [= <- _]. split; [reflexivity | apply fs_le_refl]. Qed.

Lemma local_save_imgs (folder : path) (i : nat) (l : list Img) : local (save_imgs folder i l).
Proof.
  revert i. induction l as [|img l IH]; intros i; simpl.
  - apply local_ret.
  - apply local_bind; [apply local_write | intros _; apply IH].
Qed.

Lemma local_save_query_imgs (cache_dir : path) (imgs : option (list Img)) :
  local (save_query_imgs cache_dir imgs).
Proof.
  destruct imgs; simpl; [|apply local_ret].
  apply local_bind; [apply local_mkdir | intros _; apply local_save_imgs].
Qed.

Lemma load_cached_state {Meta} (json_loads : string -> option Meta) (cache_dir : path) (s : St) :
  load_cached json_loads cache_dir s = (s, snd (load_cached json_loads cache_dir s)).
Proof.
  unfold load_cached, bind, lift, ret, read_text.
  destruct (read_result _ (path_join cache_dir "completion.txt")); [|reflexivity].
  destruct (read_result _ (path_join cache_dir "metadata.json")); [|reflexivity].
  destruct (json_load _ _); reflexivity.
Qed.

Lemma mkdir_path_exists (p : path) (s s' : St) :
  mkdir_exist_ok p s = (s', Ok tt) ->
  forall x, path_exists (st_fs s') x = path_exists (st_fs s) x || bool_decide (x = p).
Proof.
  unfold mkdir_exist_ok. intros H x.
  destruct (is_dir (st_fs s) p) eqn:D.
  - injection H as <-. destruct (decide (x = p)) as [->|Hne].
    + unfold path_exists. rewrite D. reflexivity.
    + rewrite (bool_decide_eq_false_2 _ Hne), orb_false_r. reflexivity.
  - destruct (is_file _ p); [discriminate|].
    destruct (is_dir _ (parent p)); [|discriminate]. injection H as <-.
    unfold path_exists, is_dir, is_file. cbn [st_fs set_fs fs_dirs fs_files].
    destruct (decide (x = p)) as [->|Hne].
    + rewrite (bool_decide_eq_true_2 (p ∈ {[p]} ∪ fs_dirs (st_fs s))) by set_solver.
      rewrite (bool_decide_eq_true_2 (p = p)) by reflexivity.
      rewrite !orb_true_r. reflexivity.
    + rewrite (bool_decide_eq_false_2 (x = p)) by exact Hne. rewrite orb_false_r.
      f_equal. f_equal. apply bool_decide_ext. set_solver.
Qed.

Section Query.
Context {Meta : Type} (json_dumps : Meta -> string) (json_loads : string -> option Meta)
  (query_get_id : Query -> string) (self : PretrainedLargeModel Meta)
  (prompt_text : string) (imgs0 : option (list Img))
  (hyperparameters0 : option (list (string * string))).

Local Abbreviation q := (mkQuery prompt_text imgs0 hyperparameters0).
Local Abbreviation folder := (model_folder query_get_id self q).
Local Abbreviation prompt_file := (path_join (model_folder query_get_id self q) "prompt.txt").
Local Abbreviation root := (model_cache_dir self).
Local Abbreviation call :=
  (query json_dumps json_loads query_get_id self prompt_text imgs0 hyperparameters0).

Lemma get_cache_dir_ok (s s2 : St) (p : path) :
  _get_cache_dir query_get_id self q s = (s2, Ok p) ->
  p = folder /\ st_calls s2 = st_calls s /\ fs_le (st_fs s) (st_fs s2) /\
  is_dir (st_fs s2) root = true /\ is_dir (st_fs s2) folder = true /\
  path_exists (st_fs s2) prompt_file = has_entry query_get_id self q s.
Proof.
  unfold _get_cache_dir. cbv zeta. unfold bind at 1.
  destruct (mkdir_exist_ok root s) as [s1 [[]|e]] eqn:E1; [|discriminate].
  unfold bind. destruct (mkdir_exist_ok folder s1) as [s2' [[]|e]] eqn:E2; [|discriminate].
  unfold ret. intros [= <- <-].
  pose proof (mkdir_calls _ _ _ _ E1) as C1. pose proof (mkdir_calls _ _ _ _ E2) as C2.
  pose proof (mkdir_le _ _ _ _ E1) as L1. pose proof (mkdir_le _ _ _ _ E2) as L2.
  split; [reflexivity|]. split; [congruence|]. split; [eapply fs_le_trans; eassumption|].
  split; [eapply is_dir_le; [exact L2 | eapply mkdir_ok_is_dir; exact E1]|].
  split; [eapply mkdir_ok_is_dir; exact E2|].
  rewrite (mkdir_path_exists _ _ _ E2), (mkdir_path_exists _ _ _ E1).
  unfold has_entry. cbv zeta.
  assert (Hne : prompt_file <> folder).
  { rewrite CacheFacts.path_join_prompt. intros Heq.
    apply (f_equal length) in Heq. rewrite length_app in Heq. simpl in Heq. lia. }
  rewrite (bool_decide_eq_false_2 _ Hne), orb_false_r. reflexivity.
Qed.

Lemma query_and_cache_ok (s s3 : St) :
  query_and_cache json_dumps self q folder s = (s3, Ok tt) ->
  use_cache_only self = false /\ st_calls s3 = S (st_calls s) /\
  fs_le (st_fs s) (st_fs s3) /\ is_file (st_fs s3) prompt_file = true.
Proof.
  unfold query_and_cache. destruct (use_cache_only self) eqn:U; [discriminate|].
  unfold bind at 1, _run_query.
  destruct (run_query self (st_calls s) q) as [response|e]; [|discriminate].
  set (s1 := mkSt (st_fs s) (S (st_calls s))).
  unfold bind at 1.
  destruct (write_text prompt_file (Some (prompt q)) s1) as [s4 [[]|e]] eqn:W; [|discriminate].
  intros H.
  assert (Hrest : local (
    let* _ := save_query_imgs folder (imgs q) in
    let* _ := write_text (path_join folder "completion.txt") (text response) in
    write_text (path_join folder "metadata.json") (Some (json_dumps (metadata response))))).
  { apply local_bind; [apply local_save_query_imgs | intros _].
    apply local_bind; [apply local_write | intros _; apply local_write]. }
  destruct (Hrest _ _ _ H) as [C3 L3].
  pose proof (write_text_calls _ _ _ _ _ W) as C4. pose proof (write_text_le _ _ _ _ _ W) as L4.
  split; [reflexivity|]. split; [rewrite C3, C4; reflexivity|].
  split; [eapply fs_le_trans; [exact L4 | exact L3]|].
  apply (proj2 L3). eapply write_text_ok_file. exact W.
Qed.

(** With the cache directories and [prompt.txt] in place, [query] only
    loads the cached files. *)
Lemma query_hit (s : St) :
  is_dir (st_fs s) root = true -> is_dir (st_fs s) folder = true ->
  path_exists (st_fs s) prompt_file = true ->
  call s = load_cached json_loads folder s.
Proof.
  intros Hr Hf Hp. unfold query, _get_cache_dir. cbv zeta.
  unfold bind at 1 2 3. unfold mkdir_exist_ok at 1. rewrite Hr.
  unfold bind at 1. unfold mkdir_exist_ok. rewrite Hf.
  unfold ret at 1. unfold bind at 1. unfold exists_path. rewrite Hp. simpl.
  unfold bind, ret. reflexivity.
Qed.

(** C1 (as amended): if a call to [query] returns, it made exactly one
    remote call ([_run_query]) when the query had no cache entry and none
    when it had one; a second call with the same arguments then makes no
    remote call, changes nothing and returns the same response. *)
Theorem query_twice_one_remote_call (s s1 : St) (r1 : Response Meta) :
  call s = (s1, Ok r1) ->
  st_calls s1 = st_calls s + (if has_entry query_get_id self q s then 0 else 1) /\
  call s1 = (s1, Ok r1).
Proof.
  intros H. unfold query in H. cbv zeta in H. unfold bind at 1 in H.
  destruct (_get_cache_dir query_get_id self q s) as [s2 [p|e]] eqn:G; [|discriminate].
  destruct (get_cache_dir_ok _ _ _ G) as (-> & C2 & L2 & R2 & F2 & E2).
  unfold bind at 1, exists_path in H.
  destruct (path_exists (st_fs s2) prompt_file) eqn:P.
  - cbn [negb] in H. unfold bind at 1, ret at 1 in H.
    rewrite load_cached_state in H. injection H as <- Hr.
    rewrite <- E2. split; [rewrite C2; lia|].
    rewrite (query_hit s2 R2 F2 P), load_cached_state, Hr. reflexivity.
  - cbn [negb] in H. unfold bind at 1 in H.
    destruct (query_and_cache json_dumps self q folder s2) as [s3 [[]|e]] eqn:Q; [|discriminate].
    destruct (query_and_cache_ok _ _ Q) as (U & C3 & L3 & P3).
    rewrite load_cached_state in H. injection H as <- Hr.
    rewrite <- E2. split; [rewrite C3, C2; lia|].
    assert (P3' : path_exists (st_fs s3) prompt_file = true).
    { unfold path_exists. rewrite P3. apply orb_true_r. }
    rewrite (query_hit s3 (is_dir_le _ _ _ L3 R2) (is_dir_le _ _ _ L3 F2) P3').
    rewrite load_cached_state, Hr. reflexivity.
Qed.

(** [_get_cache_dir] makes the cache directory, then the query's folder:
    it returns the folder when both [mkdir] calls succeed, and raises the
    [OSError] of the first that fails otherwise. *)
Lemma get_cache_dir_cases (s : St) :
  let s1 := fst (mkdir_exist_ok root s) in
  (mkdir_would_succeed (st_fs s) root = true /\ mkdir_would_succeed (st_fs s1) folder = true /\
     exists s2, _get_cache_dir query_get_id self q s = (s2, Ok folder)) \/
  ((mkdir_would_succeed (st_fs s) root = false \/ mkdir_would_succeed (st_fs s1) folder = false) /\
     exists s2 e, _get_cache_dir query_get_id self q s = (s2, Err e) /\
       In e [FileExistsError; FileNotFoundError; NotADirectoryError]).
Proof.
  cbv zeta. unfold _get_cache_dir. cbv zeta. unfold bind.
  destruct (mkdir_would_succeed (st_fs s) root) eqn:W1.
  - destruct (mkdir_exist_ok root s) as [s1 r1] eqn:E1.
    assert (R1 : r1 = Ok tt) by (rewrite (mkdir_success _ _ W1) in E1; congruence).
    subst r1. cbn [fst].
    destruct (mkdir_would_succeed (st_fs s1) folder) eqn:W2.
    + left. rewrite (mkdir_success _ _ W2). split; [reflexivity|]. split; [reflexivity|].
      eexists. reflexivity.
    + right. destruct (mkdir_failure_oserror _ _ W2) as (e & E2 & He). rewrite E2.
      split; [right; reflexivity|]. exists s1, e. auto.
  - right. destruct (mkdir_failure_oserror _ _ W1) as (e & E1 & He). rewrite E1.
    split; [left; reflexivity|]. exists s, e. auto.
Qed.

Lemma get_cache_dir_state (s s2 : St) (r : res path) :
  _get_cache_dir query_get_id self q s = (s2, r) ->
  fs_files (st_fs s2) = fs_files (st_fs s) /\ st_calls s2 = st_calls s.
Proof.
  unfold _get_cache_dir. cbv zeta. unfold bind.
  destruct (mkdir_exist_ok root s) as [s1 [[]|e]] eqn:E1.
  - destruct (mkdir_exist_ok folder s1) as [s3 [[]|e]] eqn:E2; intros [= <- _];
      rewrite (mkdir_files _ _ _ _ E2), (mkdir_files _ _ _ _ E1);
      rewrite (mkdir_calls _ _ _ _ E2), (mkdir_calls _ _ _ _ E1); auto.
  - intros [= <- _]. rewrite (mkdir_files _ _ _ _ E1), (mkdir_calls _ _ _ _ E1). auto.
Qed.

(** C3 (as amended): a cache-only client asked for a query with no cache
    entry never calls the remote model and changes no file; it raises the
    [ValueError] exactly when the cache directory and the query's folder
    are there or can be made by [mkdir], and raises [mkdir]'s [OSError]
    otherwise. *)
Theorem query_cache_only_miss_raises (s : St) :
  use_cache_only self = true -> has_entry query_get_id self q s = false ->
  st_calls (fst (call s)) = st_calls s /\
  fs_files (st_fs (fst (call s))) = fs_files (st_fs s) /\
  (snd (call s) = Err (ValueError "No cached response found for prompt.") <->
     mkdir_would_succeed (st_fs s) root = true /\
     mkdir_would_succeed (st_fs (fst (mkdir_exist_ok root s))) folder = true) /\
  (mkdir_would_succeed (st_fs s) root = false \/
   mkdir_would_succeed (st_fs (fst (mkdir_exist_ok root s))) folder = false ->
     exists e, snd (call s) = Err e /\
               In e [FileExistsError; FileNotFoundError; NotADirectoryError]).
Proof.
  intros U He.
  destruct (get_cache_dir_cases s) as [(W1 & W2 & s2 & G)|(Wf & s2 & e & G & Ho)];
    destruct (get_cache_dir_state _ _ _ G) as [Fs Cs].
  - destruct (get_cache_dir_ok _ _ _ G) as (_ & _ & _ & _ & _ & E2).
    assert (Hc : call s = (s2, Err (ValueError "No cached response found for prompt."))).
    { unfold query. cbv zeta. unfold bind at 1. rewrite G.
      unfold bind at 1, exists_path. rewrite E2, He. cbn [negb].
      unfold query_and_cache. rewrite U. reflexivity. }
    rewrite Hc. cbn [fst snd]. split; [exact Cs|]. split; [exact Fs|].
    split; [split; [intros _; auto | intros _; reflexivity]|].
    intros [H|H]; congruence.
  - assert (Hc : call s = (s2, Err e)).
    { unfold query. cbv zeta. unfold bind at 1. rewrite G. reflexivity. }
    rewrite Hc. cbn [fst snd]. split; [exact Cs|]. split; [exact Fs|].
    split; [split|].
    + intros [= ->]. simpl in Ho. destruct Ho as [H|[H|[H|[]]]]; discriminate.
    + intros [W1 W2]. destruct Wf as [H|H]; congruence.
    + intros _. exists e. auto.
Qed.

End Query.

End ClientFacts.

(** *** Concrete clients *)

Module ClientExamples.
Import Demo.

(** C1 witness: from an empty file system the first call returns, after
    one remote call, and the second returns the same response. *)
Lemma query_twice_one_remote_call_witness :
  let s1 := fst (canned_query false empty_st) in
  canned_query false empty_st = (s1, Ok (mkResponse (Some "Hi!") tt)) /\
  st_calls s1 = st_calls empty_st +
    (if has_entry prompt (canned false) (mkQuery "Hello!" None None) empty_st then 0 else 1) /\
  canned_query false s1 = (s1, Ok (mkResponse (Some "Hi!") tt)).
Proof.
  intros s1.
  assert (H : canned_query false empty_st = (s1, Ok (mkResponse (Some "Hi!") tt)))
    by (vm_compute; reflexivity).
  split; [exact H|].
  exact (ClientFacts.query_twice_one_remote_call dumps loads prompt (canned false)
           "Hello!" None None empty_st s1 _ H).
Defined.

(** C1 counterexample: with the query cached by an earlier process, two
    calls through one client make no remote call at all, not one. *)
Lemma query_twice_cached_no_remote_call :
  let s1 := fst (canned_query false cached_st) in
  let s2 := fst (canned_query false s1) in
  snd (canned_query false cached_st) = Ok (mkResponse (Some "Hi!") tt) /\
  snd (canned_query false s1) = Ok (mkResponse (Some "Hi!") tt) /\
  st_calls s2 = st_calls cached_st /\
  st_calls s2 <> st_calls cached_st + 1.
Proof. vm_compute. split; [reflexivity | split; [reflexivity | split; [reflexivity | discriminate]]]. Qed.

(** C3 witness: a cache-only client with nothing cached, whose cache
    directory is there, raises the [ValueError] and makes no remote call. *)
Lemma query_cache_only_miss_raises_witness :
  let q := mkQuery "Hello!" None None in
  let s := mkSt (mkFS {[ ["cache"] ]} ∅) 0 in
  let root := model_cache_dir (canned true) in
  let folder := model_folder prompt (canned true) q in
  use_cache_only (canned true) = true /\
  has_entry prompt (canned true) q s = false /\
  snd (canned_query true s) = Err (ValueError "No cached response found for prompt.") /\
  (st_calls (fst (canned_query true s)) = st_calls s /\
   fs_files (st_fs (fst (canned_query true s))) = fs_files (st_fs s) /\
   (snd (canned_query true s) = Err (ValueError "No cached response found for prompt.") <->
      mkdir_would_succeed (st_fs s) root = true /\
      mkdir_would_succeed (st_fs (fst (mkdir_exist_ok root s))) folder = true) /\
   (mkdir_would_succeed (st_fs s) root = false \/
    mkdir_would_succeed (st_fs (fst (mkdir_exist_ok root s))) folder = false ->
      exists e, snd (canned_query true s) = Err e /\
                In e [FileExistsError; FileNotFoundError; NotADirectoryError])).
Proof.
  intros q s root folder.
  assert (U : use_cache_only (canned true) = true) by reflexivity.
  assert (He : has_entry prompt (canned true) q s = false) by (vm_compute; reflexivity).
  split; [exact U|]. split; [exact He|]. split; [vm_compute; reflexivity|].
  exact (ClientFacts.query_cache_only_miss_raises dumps loads prompt (canned true)
           "Hello!" None None s U He).
Defined.

(** C3 counterexample: a cache-only client whose cache directory
    [missing/cache] cannot be made (its parent is absent), with nothing
    cached, raises [mkdir]'s [FileNotFoundError], not the configuration
    [ValueError]. *)
Lemma query_cache_only_missing_parent :
  let client : PretrainedLargeModel unit := {|
    get_id := "canned"; model_cache_dir := ["missing"; "cache"]; use_cache_only := true;
    run_query := fun _ _ => Ok (mkResponse (Some "Hi!") tt) |} in
  let call := query dumps loads prompt client "Hello!" None None in
  use_cache_only client = true /\
  has_entry prompt client (mkQuery "Hello!" None None) empty_st = false /\
  call empty_st = (empty_st, Err FileNotFoundError) /\
  snd (call empty_st) <> Err (ValueError "No cached response found for prompt.").
Proof.
  intros client call.
  split; [reflexivity|]. split; [vm_compute; reflexivity|].
  split; [vm_compute; reflexivity | vm_compute; discriminate].
Qed.

End ClientExamples.

(** ** The reprompt loop and synthesis *)

Module LoopFacts.
Import Instrument.

Section Loop.
Context {Meta Sigma : Type} (issue : Query -> M Sigma (Response Meta)).

Lemma run_checks_first_rejects (checks : list (@RepromptCheck Meta)) (query : Query)
    (response : Response Meta) :
  checks <> [] ->
  (forall check, In check checks -> forall q r, exists q', check q r = Ok (Some q')) ->
  exists q', run_checks checks query response = Ok (Some q').
Proof.
  destruct checks as [|check checks]; [congruence|]. intros _ Hrej.
  destruct (Hrej check (or_introl eq_refl) query response) as [q' Hq'].
  exists q'. simpl. rewrite Hq'. reflexivity.
Qed.

Lemma reprompt_loop_rejecting (checks : list (@RepromptCheck Meta)) :
  checks <> [] ->
  (forall check, In check checks -> forall q r, exists q', check q r = Ok (Some q')) ->
  (forall q s, exists s' r, issue q s = (s', Ok r)) ->
  forall remaining query s log s' log' result,
  reprompt_loop (logged issue) checks remaining query (s, log) = ((s', log'), result) ->
  exists issued qN rN,
    log' = (log ++ issued)%list /\ length issued = S remaining /\
    last issued = Some (qN, Ok rN) /\ result = Ok rN.
Proof.
  intros Hne Hrej Hiss. induction remaining as [|k IH]; intros query s log s' log' result H;
    simpl in H; unfold bind at 1, logged in H;
    destruct (Hiss query s) as (s1 & r1 & Hi); rewrite Hi in H;
    unfold bind, lift in H;
    destruct (run_checks_first_rejects checks query r1 Hne Hrej) as [q' Hq']; rewrite Hq' in H.
  - unfold ret in H. injection H as <- <- <-.
    exists [(query, Ok r1)], query, r1. auto.
  - destruct (IH q' s1 _ s' log' result H) as (issued & qN & rN & Hlog & Hlen & Hlast & Hres).
    exists ((query, Ok r1) :: issued), qN, rN. split; [|split; [|split]].
    + rewrite Hlog, <- app_assoc. reflexivity.
    + simpl. rewrite Hlen. reflexivity.
    + destruct issued; [discriminate|]. exact Hlast.
    + exact Hres.
Qed.

(** C2: with [maxAttempts = N >= 1], a non-empty chain whose checks reject
    every response, and a model client that answers, the loop issues
    exactly [N] queries and returns the response to the [N]-th one. *)
Theorem reprompt_exhausted_returns_last (checks : list (@RepromptCheck Meta))
    (max_attempts : nat) (query : Query) (s : Sigma) :
  checks <> [] ->
  (forall check, In check checks -> forall q r, exists q', check q r = Ok (Some q')) ->
  (forall q s, exists s' r, issue q s = (s', Ok r)) ->
  1 <= max_attempts ->
  exists s' issued qN rN,
    query_with_reprompts (logged issue) query checks max_attempts (s, []) =
      ((s', issued), Ok rN) /\
    length issued = max_attempts /\ last issued = Some (qN, Ok rN).
Proof.
  intros Hne Hrej Hiss HN. destruct max_attempts as [|k]; [lia|]. simpl.
  destruct (reprompt_loop (logged issue) checks k query (s, [])) as [[s' log'] result] eqn:E.
  destruct (reprompt_loop_rejecting checks Hne Hrej Hiss k query s [] s' log' result E)
    as (issued & qN & rN & Hlog & Hlen & Hlast & Hres).
  exists s', log', qN, rN. simpl in Hlog. subst. auto.
Qed.

Lemma parse_python_code_from_text_ok (t : string) :
  exists o, parse_python_code_from_text t = Ok o.
Proof.
  rewrite Extraction.parse_python_code_from_text_cases.
  destruct (PyStr.find python_code_prefix t); [|eexists; reflexivity].
  cbv zeta. destruct (PyStr.find fence _); eexists; reflexivity.
Qed.

(** C8: once the reprompt loop has returned its terminal response,
    [synthesize_python_function_with_llm] raises exactly when that
    response has no ```python block (no text, or no marker in it), and
    otherwise returns the function with the block extracted from it. *)
Theorem synthesize_error_iff_no_code (function_name : string) (query : Query)
    (reprompt_checks : option (list (@RepromptCheck Meta))) (max_attempts : nat)
    (s s1 : Sigma) (response : Response Meta) :
  query_with_reprompts issue query
    (match reprompt_checks with Some l => l | None => [] end) max_attempts s = (s1, Ok response) ->
  (is_err (snd (synthesize_python_function_with_llm issue function_name query
                  reprompt_checks max_attempts s)) = true <->
     text response = None \/
     exists t, text response = Some t /\ parse_python_code_from_text t = Ok None) /\
  (forall t c, text response = Some t -> parse_python_code_from_text t = Ok (Some c) ->
     synthesize_python_function_with_llm issue function_name query reprompt_checks max_attempts s
     = (s1, Ok (mkSynthesizedPythonFunction function_name c))).
Proof.
  intros H. unfold synthesize_python_function_with_llm. cbv zeta. unfold bind at 1.
  rewrite H. unfold bind, lift. split.
  - destruct (text response) as [t|] eqn:Tx; simpl.
    + destruct (parse_python_code_from_text_ok t) as [[c|] Hp]; rewrite Hp; simpl.
      * split; [discriminate|]. intros [?|(t' & E & Hp')]; [discriminate|].
        injection E as <-. congruence.
      * split; [intros _; right; exists t; auto | reflexivity].
    + split; [intros _; left; reflexivity | reflexivity].
  - intros t c Tx Hp. rewrite H. simpl. rewrite Tx. simpl. rewrite Hp. reflexivity.
Qed.

End Loop.

End LoopFacts.

(** *** Concrete loops *)

Module LoopExamples.
Import Demo Instrument.

(** C2 witness: three attempts with an always-rejecting check issue three
    queries and return the third response. *)
Lemma reprompt_exhausted_returns_last_witness :
  exists s' issued qN rN,
    query_with_reprompts (logged echo_issue) (mkQuery "f" None None) [always_reject] 3 (tt, []) =
      ((s', issued), Ok rN) /\
    length issued = 3 /\ last issued = Some (qN, Ok rN).
Proof.
  apply (LoopFacts.reprompt_exhausted_returns_last echo_issue [always_reject] 3
           (mkQuery "f" None None) tt).
  - discriminate.
  - intros check [<-|[]] q r. eexists. reflexivity.
  - intros q s. eexists _, _. reflexivity.
  - lia.
Defined.

(** C8 witness: after a loop that returns a fenced response, synthesis
    returns the code of its block. *)
Lemma synthesize_error_iff_no_code_witness :
  let query := mkQuery "f" None None in
  let response := mkResponse (Some ("```python" ++ nl ++ "f" ++ nl ++ "```")) tt in
  query_with_reprompts echo_issue query [] 1 tt = (tt, Ok response) /\
  (is_err (snd (synthesize_python_function_with_llm echo_issue "g" query None 1 tt)) = true <->
     text response = None \/
     exists t, text response = Some t /\ parse_python_code_from_text t = Ok None) /\
  (forall t c, text response = Some t -> parse_python_code_from_text t = Ok (Some c) ->
     synthesize_python_function_with_llm echo_issue "g" query None 1 tt
     = (tt, Ok (mkSynthesizedPythonFunction "g" c))).
Proof.
  intros query response.
  assert (H : query_with_reprompts echo_issue query [] 1 tt = (tt, Ok response)) by reflexivity.
  split; [exact H|].
  exact (LoopFacts.synthesize_error_iff_no_code echo_issue "g" query None 1 tt tt response H).
Defined.

End LoopExamples.

(** * Further properties of the code *)

(** ** Code extraction *)

Module ExtractionMore.
Import Occurs Search.

Lemma drop_take (j k : nat) (s : string) :
  PyStr.drop j (PyStr.take k s) = PyStr.take (k - j) (PyStr.drop j s).
Proof.
  assert (Ht : forall n, PyStr.take n "" = "") by (intros []; reflexivity).
  assert (Hd : forall n, PyStr.drop n "" = "") by (intros []; reflexivity).
  revert j k. induction s as [|c s IH]; intros j k.
  - rewrite Ht, Hd, Ht. reflexivity.
  - destruct j as [|j]; [rewrite Nat.sub_0_r; reflexivity|].
    destruct k as [|k]; [rewrite Hd; reflexivity|]. apply IH.
Qed.

Lemma prefix_take (p t : string) (n : nat) :
  String.prefix p (PyStr.take n t) = true ->
  String.prefix p t = true /\ String.length p <= n.
Proof.
  revert t n. induction p as [|a p IH]; intros t n H; [split; [destruct t; reflexivity | simpl; lia]|].
  destruct n as [|n]; [discriminate|]. destruct t as [|b t]; [discriminate|].
  simpl in H |- *. destruct (ascii_dec a b); [|discriminate].
  destruct (IH t n H). split; [assumption | lia].
Qed.

Lemma prefix_cons (a b : ascii) (p t : string) :
  String.prefix (String a p) (String b t) =
  match ascii_dec a b with left _ => String.prefix p t | right _ => false end.
Proof. reflexivity. Qed.

Lemma prefix_app (a b : string) : String.prefix a (a ++ b) = true.
Proof.
  induction a as [|c a IH]; [destruct b; reflexivity|]. simpl.
  destruct (ascii_dec c c); [exact IH | congruence].
Qed.

Lemma prefix_app_l (a b s : string) : String.prefix (a ++ b) s = true -> String.prefix a s = true.
Proof.
  revert s. induction a as [|c a IH]; intros s H; [destruct s; reflexivity|].
  destruct s as [|d s]; [discriminate|]. simpl in H |- *.
  destruct (ascii_dec c d); [apply IH; exact H | discriminate].
Qed.

Lemma drop_app_le (j : nat) (a b : string) :
  j <= String.length a -> PyStr.drop j (a ++ b) = (PyStr.drop j a ++ b)%string.
Proof.
  revert j. induction a as [|c a IH]; intros [|j] Hj; simpl in *; try reflexivity; [lia|].
  apply IH. lia.
Qed.

Lemma drop_length_app (a b : string) : PyStr.drop (String.length a) (a ++ b) = b.
Proof. induction a as [|c a IH]; [reflexivity | exact IH]. Qed.

Lemma drop_add (n m : nat) (s : string) : PyStr.drop (n + m) s = PyStr.drop m (PyStr.drop n s).
Proof.
  revert s. induction n as [|n IH]; intros s; [reflexivity|].
  destruct s as [|c s]; [destruct m; reflexivity | apply IH].
Qed.

Lemma take_length_app (a b : string) : PyStr.take (String.length a) (a ++ b) = a.
Proof. induction a as [|c a IH]; [reflexivity|]. simpl. rewrite IH. reflexivity. Qed.

(** In a string without backticks, every suffix starts with another character. *)
Lemma no_backtick_drop (s : string) (j : nat) :
  Chars.no_backtick s = true -> j < String.length s ->
  exists c r, PyStr.drop j s = String c r /\ c <> "`"%char.
Proof.
  revert j. induction s as [|c s IH]; intros j H Hj; simpl in Hj; [lia|].
  unfold Chars.no_backtick in H. simpl in H. apply andb_true_iff in H as [Hc Hs].
  destruct j as [|j].
  - exists c, s. split; [reflexivity|]. intros ->. discriminate.
  - apply IH; [exact Hs | lia].
Qed.

(** A pattern starting with a backtick first occurs in [a ++ b] right
    after [a] when [a] has no backtick and [b] starts with the pattern. *)
Lemma first_occurrence_after (pat a b : string) :
  Chars.no_backtick a = true ->
  (exists p', pat = String "`" p') ->
  String.prefix pat b = true ->
  first_occurrence pat (a ++ b) (String.length a).
Proof.
  intros Ha [p' ->] Hb. split.
  - unfold occurs_at. rewrite drop_length_app. exact Hb.
  - intros j Hj. unfold occurs_at. rewrite drop_app_le by lia.
    destruct (no_backtick_drop a j Ha Hj) as (c & r & -> & Hc).
    change (String c r ++ b)%string with (String c (r ++ b)).
    rewrite prefix_cons. destruct (ascii_dec "`" c); [congruence | reflexivity].
Qed.

Lemma fence_prefix (s : string) :
  String.prefix python_code_prefix s = true -> String.prefix fence s = true.
Proof. apply (prefix_app_l fence "python"). Qed.

(** The code returned by [parse_python_code_from_text] contains no fence. *)
Lemma extracted_no_fence (t c : string) :
  parse_python_code_from_text t = Ok (Some c) -> forall j, occurs_at fence c j = false.
Proof.
  rewrite Extraction.parse_python_code_from_text_cases.
  destruct (PyStr.find python_code_prefix t) as [i|]; [|discriminate]. cbv zeta.
  destruct (PyStr.find fence (PyStr.drop (i + 9) t)) as [k|] eqn:Hk.
  - intros [= <-] j. apply find_first in Hk as [_ Hfirst].
    unfold occurs_at. rewrite drop_take.
    destruct (String.prefix fence (PyStr.take (k - j) _)) eqn:Hp; [|reflexivity].
    apply prefix_take in Hp as [Hp Hlen]. simpl in Hlen.
    specialize (Hfirst j ltac:(lia)). unfold occurs_at in Hfirst. congruence.
  - intros [= <-]. apply find_absent; [discriminate | exact Hk].
Qed.

Lemma no_fence_no_code (c : string) :
  (forall j, occurs_at fence c j = false) -> parse_python_code_from_text c = Ok None.
Proof.
  intros H. rewrite Extraction.parse_python_code_from_text_cases.
  assert (Hn : PyStr.find python_code_prefix c = None).
  { apply find_absent; [discriminate|]. intros j. specialize (H j). unfold occurs_at in *.
    destruct (String.prefix python_code_prefix _) eqn:E; [|reflexivity].
    apply fence_prefix in E. congruence. }
  rewrite Hn. reflexivity.
Qed.

(** The code extracted by [parse_python_code_from_text] contains no
    ["```"]; so extracting again finds no block, and the [utils.py]
    variant returns it unchanged. *)
Theorem extracted_code_has_no_fence (t c : string) :
  parse_python_code_from_text t = Ok (Some c) ->
  (forall j, occurs_at fence c j = false) /\
  parse_python_code_from_text c = Ok None /\
  parse_python_code_from_llm_response c = Ok c.
Proof.
  intros H. pose proof (extracted_no_fence t c H) as Hf.
  pose proof (no_fence_no_code c Hf) as Hn.
  split; [exact Hf|]. split; [exact Hn|].
  rewrite Extraction.parse_python_code_from_llm_response_text, Hn. reflexivity.
Qed.

(** [utils.parse_python_code_from_llm_response] never raises on a string
    and is idempotent: applied to its own result it returns that result. *)
Theorem parse_llm_response_idempotent (t : string) :
  exists c, parse_python_code_from_llm_response t = Ok c /\
            parse_python_code_from_llm_response c = Ok c.
Proof.
  rewrite Extraction.parse_python_code_from_llm_response_text.
  destruct (LoopFacts.parse_python_code_from_text_ok t) as [[c|] Hp]; rewrite Hp.
  - exists c. split; [reflexivity|].
    rewrite Extraction.parse_python_code_from_llm_response_text,
      (no_fence_no_code c (extracted_no_fence t c Hp)). reflexivity.
  - exists t. split; [reflexivity|].
    rewrite Extraction.parse_python_code_from_llm_response_text, Hp. reflexivity.
Qed.

(** A block written as [pre ++ "```python" ++ code ++ "```" ++ post],
    with no backtick in [pre] or [code], is extracted as exactly [code],
    by both extraction functions. *)
Theorem fenced_block_round_trip (pre code post : string) :
  Chars.no_backtick pre = true -> Chars.no_backtick code = true ->
  parse_python_code_from_text (pre ++ "```python" ++ code ++ "```" ++ post) = Ok (Some code) /\
  parse_python_code_from_llm_response (pre ++ "```python" ++ code ++ "```" ++ post) = Ok code.
Proof.
  intros Hpre Hcode.
  assert (H : parse_python_code_from_text (pre ++ "```python" ++ code ++ "```" ++ post)
              = Ok (Some code)).
  { rewrite Extraction.parse_python_code_from_text_cases.
    rewrite (proj2 (find_first _ _ _) (first_occurrence_after python_code_prefix pre
               ("```python" ++ code ++ "```" ++ post) Hpre (ex_intro _ _ eq_refl)
               (prefix_app python_code_prefix _))).
    cbv zeta. rewrite drop_add, drop_length_app.
    change (PyStr.drop 9 ("```python" ++ code ++ "```" ++ post)) with (code ++ "```" ++ post)%string.
    rewrite (proj2 (find_first _ _ _) (first_occurrence_after fence code ("```" ++ post)
               Hcode (ex_intro _ _ eq_refl) (prefix_app fence _))).
    rewrite take_length_app. reflexivity. }
  split; [exact H|].
  rewrite Extraction.parse_python_code_from_llm_response_text, H. reflexivity.
Qed.

End ExtractionMore.

(** ** [consistent_hash] *)

Module HashFacts.
Import Hashing.

Lemma hex_digit_lower (c : ascii) :
  let n := nat_of_ascii c in
  (Nat.leb 48 n && Nat.leb n 57) || (Nat.leb 97 n && Nat.leb n 102) = true ->
  exists d, hex_digit c = Some d /\ (0 <= d < 16)%Z.
Proof.
  cbv zeta. intros H. apply orb_true_iff in H.
  rewrite !andb_true_iff, !Nat.leb_le in H.
  unfold hex_digit. cbv zeta.
  repeat match goal with |- context [(?a <=? ?b)%Z] => destruct (Z.leb_spec a b) end;
    simpl; try (eexists; split; [reflexivity | lia]); lia.
Qed.

Lemma int_base16_go_value (s : string) (acc : Z) :
  forallb (fun c => let n := nat_of_ascii c in
                    (Nat.leb 48 n && Nat.leb n 57) || (Nat.leb 97 n && Nat.leb n 102))
          (list_ascii_of_string s) = true ->
  exists v, int_base16_go acc s = Some (acc * 16 ^ Z.of_nat (String.length s) + v)%Z /\
            (0 <= v < 16 ^ Z.of_nat (String.length s))%Z.
Proof.
  revert acc. induction s as [|c s IH]; intros acc H.
  - exists 0%Z. simpl. split; [f_equal; lia | lia].
  - simpl in H. apply andb_true_iff in H as [Hc Hs].
    destruct (hex_digit_lower c Hc) as (d & Hd & Hdr).
    destruct (IH (16 * acc + d)%Z Hs) as (v & Hv & Hvr).
    exists (d * 16 ^ Z.of_nat (String.length s) + v)%Z. simpl. rewrite Hd, Hv.
    rewrite Nat2Z.inj_succ, Z.pow_succ_r by lia.
    split; [f_equal; ring | nia].
Qed.

Lemma int_base16_hexdigest (s : string) :
  is_hexdigest s = true -> exists v, int_base16 s = Ok v /\ (0 <= v < 2 ^ 256)%Z.
Proof.
  unfold is_hexdigest. intros H. apply andb_true_iff in H as [Hl Hc].
  apply Nat.eqb_eq in Hl.
  destruct (int_base16_go_value s 0 Hc) as (v & Hv & Hvr).
  rewrite Hl in Hv, Hvr. change (16 ^ Z.of_nat 64)%Z with (2 ^ 256)%Z in Hv, Hvr.
  exists v. split; [|exact Hvr].
  unfold int_base16. destruct s as [|c s']; [discriminate|].
  rewrite Hv. rewrite Z.mul_0_l, Z.add_0_l. reflexivity.
Qed.

Section Hash.
Context {A : Type} (repr : A -> string) (sha256_hexdigest : string -> string).

(** [consistent_hash] never returns a negative number, despite its
    comment about mimicking a signed 64-bit [hash()]: the digest is read
    as an unsigned 256-bit integer, and the result fits a signed 64-bit
    integer only when that integer is below [2^63 + 64]. *)
Theorem consistent_hash_nonnegative (obj : A) :
  (forall s, is_hexdigest (sha256_hexdigest s) = true) ->
  exists hash_int z,
    int_base16 (sha256_hexdigest (repr obj)) = Ok hash_int /\ (0 <= hash_int < 2 ^ 256)%Z /\
    consistent_hash repr sha256_hexdigest obj = Ok z /\
    (0 <= z < 2 ^ 256)%Z /\ ((z < 2 ^ 63)%Z <-> (hash_int < 2 ^ 63 + 2 ^ 6)%Z).
Proof.
  intros Hsha. destruct (int_base16_hexdigest _ (Hsha (repr obj))) as (v & Hv & Hr).
  unfold consistent_hash. cbv zeta. rewrite Hv.
  exists v, (if (v <? 2 ^ 63)%Z then v else (v - 2 ^ 6)%Z).
  split; [reflexivity|]. split; [exact Hr|]. split; [reflexivity|].
  destruct (Z.ltb_spec v (2 ^ 63)); split; lia.
Qed.

(** Two objects get the same [consistent_hash] exactly when their digests
    are equal or differ by 64 with the smaller in [[2^63 - 64, 2^63)]: the
    [2^6] subtracted instead of [2^64] folds those digests onto others. *)
Theorem consistent_hash_collision (x y : A) (hx hy : Z) :
  int_base16 (sha256_hexdigest (repr x)) = Ok hx ->
  int_base16 (sha256_hexdigest (repr y)) = Ok hy ->
  (consistent_hash repr sha256_hexdigest x = consistent_hash repr sha256_hexdigest y <->
   hx = hy \/
   ((2 ^ 63 - 64 <= hx < 2 ^ 63)%Z /\ hy = (hx + 64)%Z) \/
   ((2 ^ 63 - 64 <= hy < 2 ^ 63)%Z /\ hx = (hy + 64)%Z)).
Proof.
  intros Hx Hy. unfold consistent_hash. cbv zeta. rewrite Hx, Hy.
  split.
  - intros [= E]. destruct (Z.ltb_spec hx (2 ^ 63)), (Z.ltb_spec hy (2 ^ 63)); lia.
  - intros H. f_equal. destruct (Z.ltb_spec hx (2 ^ 63)), (Z.ltb_spec hy (2 ^ 63)); lia.
Qed.

End Hash.

End HashFacts.

(** ** [FunctionOutputRepromptCheck] *)

Module OutputCheckFacts.
Import OutputCheck.

Section Facts.
Context {Meta Arg Out : Type}
  (create_reprompt_from_error_message : Query -> Response Meta -> string -> Query)
  (run : SynthesizedPythonFunction -> Arg -> res Out)
  (str_in : Arg -> string) (str_out : Out -> string).

Local Abbreviation check_outputs' :=
  (check_outputs create_reprompt_from_error_message run str_in str_out).
Local Abbreviation get_reprompt' :=
  (get_reprompt create_reprompt_from_error_message run str_in str_out).

Definition passes (fn : SynthesizedPythonFunction) (fn_in : Arg) (check_fn : Out -> res bool)
  : Prop :=
  exists fn_out, run fn fn_in = Ok fn_out /\ check_fn fn_out = Ok true.

Lemma check_outputs_none (name : string) (query : Query) (response : Response Meta)
    (fn : SynthesizedPythonFunction) (inputs : list Arg) (fns : list (Out -> res bool)) :
  length inputs = length fns ->
  check_outputs' name query response fn inputs fns = Ok None <->
  Forall2 (passes fn) inputs fns.
Proof.
  revert fns. induction inputs as [|x inputs IH]; intros [|f fns] Hl; simpl in Hl; try lia.
  - split; [intros _; constructor | reflexivity].
  - simpl. split.
    + destruct (run fn x) as [o|e] eqn:Hr; [|discriminate].
      destruct (f o) as [[|]|e] eqn:Hf; try discriminate.
      intros H. constructor; [exists o; auto | apply IH; [lia | exact H]].
    + intros H. inversion H as [|? ? ? ? (o & Hr & Hf) Hrest]; subst.
      rewrite Hr, Hf. apply IH; [lia | exact Hrest].
Qed.

Lemma check_outputs_some (name : string) (query : Query) (response : Response Meta)
    (fn : SynthesizedPythonFunction) (inputs : list Arg) (fns : list (Out -> res bool))
    (q' : Query) :
  length inputs = length fns ->
  check_outputs' name query response fn inputs fns = Ok (Some q') <->
  exists i fn_in check_fn fn_out,
    inputs !! i = Some fn_in /\ fns !! i = Some check_fn /\
    (forall j x f, j < i -> inputs !! j = Some x -> fns !! j = Some f -> passes fn x f) /\
    run fn fn_in = Ok fn_out /\ check_fn fn_out = Ok false /\
    q' = create_reprompt_from_error_message query response
           (invalid_output_msg str_in str_out name fn_in fn_out).
Proof.
  revert fns. induction inputs as [|x inputs IH]; intros [|f fns] Hl; simpl in Hl; try lia.
  - split; [discriminate|]. intros (i & fn_in & _ & _ & Hi & _). rewrite lookup_nil in Hi. discriminate.
  - simpl. split.
    + destruct (run fn x) as [o|e] eqn:Hr; [|discriminate].
      destruct (f o) as [[|]|e] eqn:Hf; try discriminate.
      * intros H. apply IH in H as (i & fn_in & check_fn & fn_out & Hi & Hc & Hbefore & Hrun & Hck & ->);
          [|lia].
        exists (S i), fn_in, check_fn, fn_out. do 2 (split; [assumption|]).
        split; [|auto].
        intros [|j] y g Hj Hy Hg.
        -- injection Hy as <-. injection Hg as <-. exists o. auto.
        -- apply (Hbefore j); [lia | exact Hy | exact Hg].
      * intros [= <-]. exists 0, x, f, o. repeat split; auto. intros j ? ? Hj. lia.
    + intros (i & fn_in & check_fn & fn_out & Hi & Hc & Hbefore & Hrun & Hck & ->).
      destruct i as [|i].
      * injection Hi as <-. injection Hc as <-. rewrite Hrun, Hck. reflexivity.
      * destruct (Hbefore 0 x f ltac:(lia) eq_refl eq_refl) as (o & Hr & Hf).
        rewrite Hr, Hf. apply IH; [lia|].
        exists i, fn_in, check_fn, fn_out. do 2 (split; [assumption|]).
        split; [|auto]. intros j y g Hj Hy Hg. apply (Hbefore (S j)); [lia | exact Hy | exact Hg].
Qed.

(** [FunctionOutputRepromptCheck.get_reprompt] on a response with a
    ```python block, for a check whose lists have equal lengths: it accepts
    exactly when the function's output on every input passes that input's
    check; it asks again exactly when, on some input, every earlier input
    passed and the output fails its check, the follow-up being built from
    the message naming that input, the function and the output (later
    inputs are not run). *)
Theorem output_check_first_failure (self : FunctionOutputRepromptCheck) (query : Query)
    (t : string) (m : Meta) (code : string) :
  parse_python_code_from_text t = Ok (Some code) ->
  length (_inputs self) = length (_output_check_fns self) ->
  let fn := mkSynthesizedPythonFunction (_function_name self) code in
  let response := mkResponse (Some t) m in
  (get_reprompt' self query response = Ok None <->
     Forall2 (passes fn) (_inputs self) (_output_check_fns self)) /\
  (forall q', get_reprompt' self query response = Ok (Some q') <->
     exists i fn_in check_fn fn_out,
       _inputs self !! i = Some fn_in /\ _output_check_fns self !! i = Some check_fn /\
       (forall j x f, j < i -> _inputs self !! j = Some x ->
          _output_check_fns self !! j = Some f -> passes fn x f) /\
       run fn fn_in = Ok fn_out /\ check_fn fn_out = Ok false /\
       q' = create_reprompt_from_error_message query response
              (invalid_output_msg str_in str_out (_function_name self) fn_in fn_out)).
Proof.
  intros Hp Hl. cbv zeta. unfold get_reprompt. simpl. rewrite Hp.
  split; [apply check_outputs_none; exact Hl|].
  intros q'. apply check_outputs_some. exact Hl.
Qed.

Lemma check_outputs_total (name : string) (query : Query) (response : Response Meta)
    (fn : SynthesizedPythonFunction) (inputs : list Arg) (fns : list (Out -> res bool)) :
  length inputs = length fns ->
  (forall x, exists o, run fn x = Ok o /\ Forall (fun f => exists b, f o = Ok b) fns) ->
  is_err (check_outputs' name query response fn inputs fns) = false.
Proof.
  revert fns. induction inputs as [|x inputs IH]; intros [|f fns] Hl Hall; simpl in Hl; try lia.
  - reflexivity.
  - simpl. destruct (Hall x) as (o & Hr & Hf). rewrite Hr.
    inversion Hf as [|? ? (b & Hb) _]; subst. rewrite Hb.
    destruct b; [|reflexivity]. apply IH; [lia|].
    intros y. destruct (Hall y) as (o' & Hr' & Hf'). exists o'. split; [exact Hr'|].
    inversion Hf'; assumption.
Qed.

(** [FunctionOutputRepromptCheck(function_name, inputs, output_check_fns)]
    raises [AssertionError] exactly when the two lists differ in length.
    A check it builds raises [TypeError] on a response whose text is
    [None] and [AssertionError] on one with no ```python block (it asks
    for no reprompt then); on a block it never raises when the function
    and the check functions do not, so [zip]'s [ValueError] never occurs. *)
Theorem output_check_init_errors (function_name : string) (inputs : list Arg)
    (output_check_fns : list (Out -> res bool)) :
  (FunctionOutputRepromptCheck_init function_name inputs output_check_fns = Err AssertionError <->
     length inputs <> length output_check_fns) /\
  forall self,
    FunctionOutputRepromptCheck_init function_name inputs output_check_fns = Ok self ->
    (forall query m, get_reprompt' self query (mkResponse None m) = Err TypeError) /\
    (forall query t m, parse_python_code_from_text t = Ok None ->
       get_reprompt' self query (mkResponse (Some t) m) = Err AssertionError) /\
    (forall query t m code, parse_python_code_from_text t = Ok (Some code) ->
       (forall x, exists o, run (mkSynthesizedPythonFunction function_name code) x = Ok o /\
                            Forall (fun f => exists b, f o = Ok b) output_check_fns) ->
       is_err (get_reprompt' self query (mkResponse (Some t) m)) = false).
Proof.
  unfold FunctionOutputRepromptCheck_init.
  destruct (Nat.eqb_spec (length inputs) (length output_check_fns)) as [Hl|Hl].
  - split; [split; [discriminate | congruence]|].
    intros self [= <-]. split; [reflexivity|]. split.
    + intros query t m Hp. unfold get_reprompt. simpl. rewrite Hp. reflexivity.
    + intros query t m code Hp Hall. unfold get_reprompt. simpl. rewrite Hp.
      apply check_outputs_total; assumption.
  - split; [split; [intros _; exact Hl | reflexivity]|]. intros self; discriminate.
Qed.

End Facts.

End OutputCheckFacts.

(** ** [OpenAIModel] *)

Module OpenAIFacts.
Import OpenAI.

Section Facts.
Context {Meta : Type} (client_error : option exn)
  (create : nat -> list (list (string * string)) -> string -> list (string * string)
            -> res (@ChatCompletion Meta)).

Local Abbreviation run_query' := (OpenAIModel_run_query client_error create).

(** [OpenAIModel._run_query]: a query with a non-empty image list raises
    [AssertionError] whatever the client does (no request is made; [None]
    and [[]] pass); hyperparameters named ["messages"] or ["model"] make
    the call raise [TypeError].  Otherwise it sends one user message with
    the prompt, the model name and the hyperparameters (none when they are
    [None]), and returns exactly when the completion has one choice and a
    usage, with that choice's content and the usage as metadata. *)
Theorem openai_run_query_contract (self : OpenAIModel) (calls : nat) (query : Query) :
  ((exists img l, imgs query = Some (img :: l)) -> run_query' self calls query = Err AssertionError) /\
  ((forall img l, imgs query <> Some (img :: l)) -> client_error = None ->
   let kwargs := match hyperparameters query with Some h => h | None => [] end in
   (existsb (fun kv => String.eqb (fst kv) "messages" || String.eqb (fst kv) "model") kwargs = true ->
      run_query' self calls query = Err TypeError) /\
   (existsb (fun kv => String.eqb (fst kv) "messages" || String.eqb (fst kv) "model") kwargs = false ->
      forall r, run_query' self calls query = Ok r <->
      exists completion content metadata,
        create calls [[("role", "user"); ("content", prompt query); ("type", "text")]]
          (_model_name self) kwargs = Ok completion /\
        choices completion = [content] /\ usage completion = Some metadata /\
        r = mkResponse content metadata)).
Proof.
  split.
  - intros (img & l & Hi). unfold OpenAIModel_run_query. rewrite Hi. reflexivity.
  - intros Hi Hc. cbv zeta. unfold OpenAIModel_run_query.
    assert (Hb : match imgs query with Some (_ :: _) => true | _ => false end = false).
    { destruct (imgs query) as [[|img l]|] eqn:E; [reflexivity | exfalso; exact (Hi img l eq_refl) | reflexivity]. }
    rewrite Hb, Hc. cbv zeta. split.
    + intros Hk. rewrite Hk. reflexivity.
    + intros Hk r. rewrite Hk.
      destruct (create _ _ _ _) as [completion|e]; [|split; [discriminate | intros (? & ? & ? & ? & _); discriminate]].
      split.
      * destruct (Nat.eqb_spec (length (choices completion)) 1) as [Hl|Hl]; simpl; [|discriminate].
        destruct (choices completion) as [|content [|c2 cs]] eqn:Ech; simpl in Hl; try lia.
        destruct (usage completion) as [metadata|] eqn:Eu; [|discriminate].
        intros [= <-]. exists completion, content, metadata. auto.
      * intros (completion' & content & metadata & [= <-] & Ech & Eu & ->).
        rewrite Ech, Eu. reflexivity.
Qed.

End Facts.

End OpenAIFacts.

(** ** Instantiating the abstract classes *)

Module AbcFacts.
Import Abc.

(** [OpenAIModel] leaves [get_id] abstract, so constructing one always
    raises [TypeError], whatever the arguments and the environment, before
    the [OPENAI_API_KEY] assertion runs and without touching the file
    system.  [CannedResponseModel] and [FilePretrainedLargeModelCache]
    define every abstract method and construct through their
    [__init__]. *)
Theorem openai_model_not_instantiable :
  abstractmethods OpenAIModel_mro = ["get_id"] /\
  (forall (environ : list string) (model_name : string) (cache_dir : path)
          (use_cache_only : bool) (s : St),
     instantiate OpenAIModel_mro
       (OpenAI.OpenAIModel_init environ model_name cache_dir use_cache_only) s
     = (s, Err TypeError)) /\
  abstractmethods CannedResponseModel_mro = [] /\
  abstractmethods FilePretrainedLargeModelCache_mro = [] /\
  (forall S A (init : M S A), instantiate CannedResponseModel_mro init = init) /\
  (forall cache_dir : path,
     instantiate FilePretrainedLargeModelCache_mro (FilePretrainedLargeModelCache_init cache_dir)
     = FilePretrainedLargeModelCache_init cache_dir).
Proof. repeat split; reflexivity. Qed.

End AbcFacts.

(** ** Cache entries on disk *)

Module EntryFacts.
Import FSFacts CacheView ClientFacts.

(** *** Path names *)

Lemma string_app_nil_r (s : string) : (s ++ "")%string = s.
Proof.
  induction s as [|c s IH]; [reflexivity|].
  change (String c (s ++ "") = String c s). rewrite IH. reflexivity.
Qed.

Lemma string_length_app (a b : string) :
  String.length (a ++ b) = String.length a + String.length b.
Proof. induction a as [|c a IH]; [reflexivity|]. simpl. rewrite IH. reflexivity. Qed.

Lemma string_app_inv_r (a b c : string) : (a ++ c)%string = (b ++ c)%string -> a = b.
Proof.
  revert b. induction a as [|x a IH]; intros [|y b] H.
  - reflexivity.
  - exfalso. apply (f_equal String.length) in H.
    rewrite !string_length_app in H. simpl in H. lia.
  - exfalso. apply (f_equal String.length) in H.
    rewrite !string_length_app in H. simpl in H. lia.
  - injection H as -> H. f_equal. apply IH. exact H.
Qed.

Lemma slash_free_app (a b : string) :
  Chars.slash_free (a ++ b) = Chars.slash_free a && Chars.slash_free b.
Proof.
  unfold Chars.slash_free. induction a as [|c a IH]; [reflexivity|].
  change (String c a ++ b)%string with (String c (a ++ b)).
  change (list_ascii_of_string (String c (a ++ b))) with (c :: list_ascii_of_string (a ++ b)).
  change (list_ascii_of_string (String c a)) with (c :: list_ascii_of_string a).
  cbn [forallb]. rewrite IH, andb_assoc. reflexivity.
Qed.

Lemma split_slash_free (acc s : string) :
  Chars.slash_free s = true -> split_slash acc s = [(acc ++ s)%string].
Proof.
  revert acc. induction s as [|c s IH]; intros acc H.
  - simpl. rewrite string_app_nil_r. reflexivity.
  - unfold Chars.slash_free in H. cbn [list_ascii_of_string forallb] in H.
    apply andb_true_iff in H as [Hc Hs].
    cbn [split_slash]. destruct (Ascii.eqb c "/"%char); [discriminate|].
    rewrite IH by exact Hs. rewrite Checks.string_app_assoc. reflexivity.
Qed.

(** A relative name with no ['/'] (and other than [""] and ["."]) is one
    component. *)
Lemma path_join_simple (p : path) (name : string) :
  Chars.slash_free name = true -> name <> "" -> name <> "." ->
  path_join p name = (p ++ [name])%list.
Proof.
  intros Hs Hne Hdot. destruct name as [|c rest]; [congruence|].
  assert (Hc : Ascii.eqb c "/"%char = false).
  { unfold Chars.slash_free in Hs. cbn [list_ascii_of_string forallb] in Hs.
    apply andb_true_iff in Hs as [Hc _]. destruct (Ascii.eqb c "/"%char); [discriminate | reflexivity]. }
  unfold path_join. rewrite Hc. f_equal.
  unfold components. rewrite split_slash_free by exact Hs.
  change ("" ++ String c rest)%string with (String c rest).
  rewrite filter_cons_True; [reflexivity|].
  rewrite (proj2 (String.eqb_neq _ _) Hne), (proj2 (String.eqb_neq _ _) Hdot).
  reflexivity.
Qed.

Lemma pretty_N_go_slash_free (x : N) (s : string) :
  Chars.slash_free s = true -> Chars.slash_free (pretty_N_go x s) = true.
Proof.
  revert s. induction (N.lt_wf_0 x) as [x _ IH]; intros s Hs.
  destruct (decide (x = 0%N)) as [->|Hx]; [rewrite pretty_N_go_0; exact Hs|].
  rewrite pretty_N_go_step by lia. apply IH; [apply N.div_lt; lia|].
  unfold Chars.slash_free in *. cbn [list_ascii_of_string forallb]. rewrite Hs, andb_true_r.
  unfold pretty_N_char. repeat case_match; reflexivity.
Qed.

Lemma pretty_slash_free (n : nat) : Chars.slash_free (pretty n) = true.
Proof.
  change (pretty n) with (pretty (N.of_nat n)). unfold pretty, pretty_N.
  case_decide; [reflexivity|]. apply pretty_N_go_slash_free. reflexivity.
Qed.

(** The file name of the [i]-th image is one component. *)
Lemma img_path (p : path) (i : nat) :
  path_join p (pretty i ++ ".jpg")%string = (p ++ [(pretty i ++ ".jpg")%string])%list.
Proof.
  apply path_join_simple.
  - rewrite slash_free_app, pretty_slash_free. reflexivity.
  - intros H. apply (f_equal String.length) in H. rewrite string_length_app in H. simpl in H. lia.
  - intros H. apply (f_equal String.length) in H. rewrite string_length_app in H. simpl in H. lia.
Qed.

Lemma imgs_path (p : path) : path_join p "imgs" = (p ++ ["imgs"])%list.
Proof. reflexivity. Qed.

Lemma completion_path (p : path) : path_join p "completion.txt" = (p ++ ["completion.txt"])%list.
Proof. reflexivity. Qed.

Lemma metadata_path (p : path) : path_join p "metadata.json" = (p ++ ["metadata.json"])%list.
Proof. reflexivity. Qed.

Lemma app_single_ne (p : path) (a b : string) : a <> b -> (p ++ [a])%list <> (p ++ [b])%list.
Proof. intros Hab H. apply app_inv_head in H. congruence. Qed.

Lemma app_len_ne (p : path) (a b : list string) :
  length a <> length b -> (p ++ a)%list <> (p ++ b)%list.
Proof. intros Hl H. apply (f_equal length) in H. rewrite !length_app in H. lia. Qed.

End EntryFacts.

(** ** What saving an entry writes *)

Module SaveFacts.
Import FSFacts CacheView ClientFacts EntryFacts.

(** [fs'] differs from [fs] only in the files [P] allows, and has no new
    directory outside [D]. *)
Definition frame (P D : path -> Prop) (fs fs' : FS) : Prop :=
  (forall p, ~ P p -> fs_files fs' !! p = fs_files fs !! p) /\
  (forall d, d ∈ fs_dirs fs' -> d ∈ fs_dirs fs \/ D d).

Definition confined {A} (P D : path -> Prop) (m : M St A) : Prop :=
  forall s s' r, m s = (s', r) -> frame P D (st_fs s) (st_fs s').

(** A computation that never raises [TypeError]. *)
Definition no_type_error {A} (m : M St A) : Prop :=
  forall s, snd (m s) <> Err TypeError.

(** The writes shared by [save] and the miss branch of [query]. *)
Definition entry_writes (cache_dir : path) (prompt_text : string)
    (imgs0 : option (list Img)) (x : option string) (d : string) : M St unit :=
  let* _ := write_text (path_join cache_dir "prompt.txt") (Some prompt_text) in
  let* _ := save_query_imgs cache_dir imgs0 in
  let* _ := write_text (path_join cache_dir "completion.txt") x in
  write_text (path_join cache_dir "metadata.json") (Some d).

Lemma frame_refl (P D : path -> Prop) (fs : FS) : frame P D fs fs.
Proof. split; auto. Qed.

Lemma frame_trans (P D : path -> Prop) (a b c : FS) :
  frame P D a b -> frame P D b c -> frame P D a c.
Proof.
  intros [F1 D1] [F2 D2]. split.
  - intros p Hp. rewrite F2, F1 by exact Hp. reflexivity.
  - intros d Hd. destruct (D2 d Hd) as [H|H]; [exact (D1 d H) | right; exact H].
Qed.

Lemma frame_mono (P P' D D' : path -> Prop) (fs fs' : FS) :
  (forall p, P p -> P' p) -> (forall d, D d -> D' d) ->
  frame P D fs fs' -> frame P' D' fs fs'.
Proof.
  intros HP HD [F Dd]. split.
  - intros p Hp. apply F. intros H. apply Hp, HP, H.
  - intros d Hd. destruct (Dd d Hd); [left | right; apply HD]; assumption.
Qed.

Lemma confined_mono {A} (P P' D D' : path -> Prop) (m : M St A) :
  (forall p, P p -> P' p) -> (forall d, D d -> D' d) ->
  confined P D m -> confined P' D' m.
Proof. intros HP HD Hm s s' r H. eapply frame_mono; [exact HP | exact HD | exact (Hm _ _ _ H)]. Qed.

Lemma confined_ret {A} (P D : path -> Prop) (a : A) : confined P D (ret a).
Proof. intros s s' r [= <- _]. apply frame_refl. Qed.

Lemma confined_raise {A} (P D : path -> Prop) (e : exn) : confined (A := A) P D (raise e).
Proof. intros s s' r [= <- _]. apply frame_refl. Qed.

Lemma confined_lift {A} (P D : path -> Prop) (x : res A) : confined P D (lift x).
Proof. intros s s' r [= <- _]. apply frame_refl. Qed.

Lemma confined_bind {A B} (P D : path -> Prop) (m : M St A) (k : A -> M St B) :
  confined P D m -> (forall a, confined P D (k a)) -> confined P D (bind m k).
Proof.
  intros Hm Hk s s' r. unfold bind. destruct (m s) as [s1 [a|e]] eqn:E.
  - intros H. eapply frame_trans; [exact (Hm _ _ _ E) | exact (Hk a _ _ _ H)].
  - intros [= <- _]. exact (Hm _ _ _ E).
Qed.

Lemma confined_mkdir (p : path) : confined (fun _ => False) (fun d => d = p) (mkdir_exist_ok p).
Proof.
  intros s s' r. unfold mkdir_exist_ok.
  destruct (is_dir _ p); [intros [= <- _]; apply frame_refl|].
  destruct (is_file _ p); [intros [= <- _]; apply frame_refl|].
  destruct (is_dir _ (parent p)); intros [= <- _]; [|apply frame_refl].
  split; [reflexivity|]. simpl. intros d [Hd|Hd]%elem_of_union; [right; set_solver | left; exact Hd].
Qed.

Lemma confined_write (p : path) (x : option string) :
  confined (fun q => q = p) (fun _ => False) (write_text p x).
Proof.
  intros s s' r. unfold write_text.
  destruct (is_dir _ p); [intros [= <- _]; apply frame_refl|].
  destruct (is_dir _ (parent p)); [|intros [= <- _]; apply frame_refl].
  assert (Hput : forall v, frame (fun q => q = p) (fun _ => False) (st_fs s)
            (st_fs (set_fs (mkFS (fs_dirs (st_fs s)) (<[p:=v]> (fs_files (st_fs s)))) s))).
  { intros v. split; [|simpl; auto]. intros q Hq. simpl.
    rewrite lookup_insert_ne; [reflexivity|]. intros ->. apply Hq. reflexivity. }
  destruct x; intros [= <- _]; apply Hput.
Qed.

Lemma confined_read (P D : path -> Prop) (p : path) : confined P D (read_text p).
Proof. intros s s' r H. apply read_text_state in H. subst. apply frame_refl. Qed.

Lemma confined_exists (P D : path -> Prop) (p : path) : confined P D (exists_path p).
Proof. intros s s' r [= <- _]. apply frame_refl. Qed.

Lemma confined_run_query {Meta} (P D : path -> Prop) (self : PretrainedLargeModel Meta)
    (q : Query) : confined P D (_run_query self q).
Proof. intros s s' r [= <- _]. apply frame_refl. Qed.

(** [save_imgs folder i] writes only the files [folder/k.jpg] with [k >= i]. *)
Lemma confined_save_imgs_from (folder : path) (i : nat) (l : list Img) :
  confined (fun q => exists k, i <= k /\ q = (folder ++ [(pretty k ++ ".jpg")%string])%list)
           (fun _ => False) (save_imgs folder i l).
Proof.
  revert i. induction l as [|img l IH]; intros i; simpl; [apply confined_ret|].
  apply confined_bind.
  - eapply confined_mono; [| intros d Hd; exact Hd | apply confined_write].
    intros q ->. exists i. split; [lia | apply img_path].
  - intros _. eapply confined_mono; [| intros d Hd; exact Hd | apply IH].
    intros q (k & Hk & ->). exists k. split; [lia | reflexivity].
Qed.

Lemma confined_save_imgs (folder : path) (i : nat) (l : list Img) :
  confined (fun q => folder `prefix_of` q) (fun _ => False) (save_imgs folder i l).
Proof.
  eapply confined_mono; [| intros d Hd; exact Hd | apply confined_save_imgs_from].
  intros q (k & _ & ->). eexists. reflexivity.
Qed.

Lemma confined_save_query_imgs (cache_dir : path) (imgs0 : option (list Img)) :
  confined (fun q => (cache_dir ++ ["imgs"])%list `prefix_of` q)
           (fun d => d = (cache_dir ++ ["imgs"])%list) (save_query_imgs cache_dir imgs0).
Proof.
  destruct imgs0 as [l|]; simpl; [|apply confined_ret].
  apply confined_bind.
  - eapply confined_mono; [| | apply confined_mkdir]; [intros _ [] | intros d Hd; exact Hd].
  - intros _. eapply confined_mono; [| | apply confined_save_imgs]; [intros q Hq; exact Hq | intros _ []].
Qed.

Lemma confined_entry_writes (cache_dir : path) (prompt_text : string)
    (imgs0 : option (list Img)) (x : option string) (d : string) :
  confined (fun q => cache_dir `prefix_of` q) (fun d => d = (cache_dir ++ ["imgs"])%list)
    (entry_writes cache_dir prompt_text imgs0 x d).
Proof.
  assert (Hw : forall name y, path_join cache_dir name = (cache_dir ++ [name])%list ->
            confined (fun q => cache_dir `prefix_of` q)
              (fun d => d = (cache_dir ++ ["imgs"])%list) (write_text (path_join cache_dir name) y)).
  { intros name y Hp. eapply confined_mono; [| | apply confined_write]; [| intros _ []].
    intros q ->. rewrite Hp. eexists. reflexivity. }
  unfold entry_writes. apply confined_bind; [apply Hw; reflexivity | intros _].
  apply confined_bind; [| intros _].
  - eapply confined_mono; [| | apply confined_save_query_imgs]; [| intros e He; exact He].
    intros q [k ->]. exists ("imgs" :: k). rewrite <- app_assoc. reflexivity.
  - apply confined_bind; [apply Hw; reflexivity | intros _; apply Hw; reflexivity].
Qed.

Lemma confined_load_cached {Meta} (json_loads : string -> option Meta) (P D : path -> Prop)
    (cache_dir : path) : confined P D (load_cached json_loads cache_dir).
Proof.
  unfold load_cached. apply confined_bind; [apply confined_read | intros completion].
  apply confined_bind; [apply confined_read | intros metadata_text].
  apply confined_bind; [apply confined_lift | intros metadata; apply confined_ret].
Qed.

Lemma local_entry_writes (cache_dir : path) (prompt_text : string)
    (imgs0 : option (list Img)) (x : option string) (d : string) :
  local (entry_writes cache_dir prompt_text imgs0 x d).
Proof.
  unfold entry_writes. apply local_bind; [apply local_write | intros _].
  apply local_bind; [apply local_save_query_imgs | intros _].
  apply local_bind; [apply local_write | intros _; apply local_write].
Qed.

(** *** Single operations *)

(** [open(p, "w").write(x)] either writes (the empty text for [None],
    then raising [TypeError]) or raises an [OSError] and changes nothing. *)
Lemma write_text_cases (p : path) (x : option string) (s s' : St) (r : res unit) :
  write_text p x s = (s', r) ->
  (st_fs s' = mkFS (fs_dirs (st_fs s)) (<[p := default "" x]> (fs_files (st_fs s))) /\
   r = match x with Some _ => Ok tt | None => Err TypeError end) \/
  (s' = s /\ exists e, r = Err e /\ e <> TypeError).
Proof.
  unfold write_text.
  destruct (is_dir _ p).
  { intros [= <- <-]. right. split; [reflexivity|]. eexists. split; [reflexivity | discriminate]. }
  destruct (is_dir _ (parent p)).
  - destruct x; intros [= <- <-]; left; split; reflexivity.
  - intros [= <- <-]. right. split; [reflexivity|]. eexists. split; [reflexivity|].
    unfold no_parent_error. destruct (existsb _ _); discriminate.
Qed.

Lemma nte_bind {A B} (m : M St A) (k : A -> M St B) :
  no_type_error m -> (forall a, no_type_error (k a)) -> no_type_error (bind m k).
Proof.
  intros Hm Hk s. specialize (Hm s). unfold bind. revert Hm.
  destruct (m s) as [s1 [a|e]]; intros Hm; [apply Hk|]. simpl in *. intros [= E]. subst. exact (Hm eq_refl).
Qed.

Lemma nte_ret {A} (a : A) : no_type_error (ret a).
Proof. intros s. discriminate. Qed.

Lemma nte_mkdir (p : path) : no_type_error (mkdir_exist_ok p).
Proof.
  intros s. unfold mkdir_exist_ok, no_parent_error.
  destruct (is_dir _ p); [discriminate|]. destruct (is_file _ p); [discriminate|].
  destruct (is_dir _ (parent p)); [discriminate|]. destruct (existsb _ _); discriminate.
Qed.

Lemma nte_write_some (p : path) (v : string) : no_type_error (write_text p (Some v)).
Proof.
  intros s. destruct (write_text p (Some v) s) as [s' r] eqn:W. simpl.
  destruct (write_text_cases _ _ _ _ _ W) as [(_ & ->)|(_ & e & -> & He)]; [discriminate|].
  intros [= E]. exact (He E).
Qed.

Lemma nte_save_imgs (folder : path) (i : nat) (l : list Img) : no_type_error (save_imgs folder i l).
Proof.
  revert i. induction l as [|img l IH]; intros i; simpl; [apply nte_ret|].
  apply nte_bind; [apply nte_write_some | intros _; apply IH].
Qed.

Lemma nte_save_query_imgs (cache_dir : path) (imgs0 : option (list Img)) :
  no_type_error (save_query_imgs cache_dir imgs0).
Proof.
  destruct imgs0; simpl; [|apply nte_ret].
  apply nte_bind; [apply nte_mkdir | intros _; apply nte_save_imgs].
Qed.

Lemma load_outcome_not_type_error {Meta} (json_loads : string -> option Meta) (folder : path)
    (fs : FS) : load_outcome json_loads folder fs <> Err TypeError.
Proof.
  unfold load_outcome.
  destruct (read_result fs (path_join folder "completion.txt")) as [c|e] eqn:R1;
    [|intros [= ->]; exact (read_result_not_type_error _ _ R1)].
  destruct (read_result fs (path_join folder "metadata.json")) as [mt|e] eqn:R2;
    [|intros [= ->]; exact (read_result_not_type_error _ _ R2)].
  destruct (json_loads _); discriminate.
Qed.

(** After [_get_cache_dir], [query] loads the entry as [load_outcome] reads it. *)
Lemma load_cached_outcome {Meta} (json_loads : string -> option Meta) (cache_dir : path) (s : St) :
  load_cached json_loads cache_dir s = (s, load_outcome json_loads cache_dir (st_fs s)).
Proof.
  unfold load_cached, load_outcome, bind, lift, ret, read_text.
  destruct (read_result _ (path_join cache_dir "completion.txt")); [|reflexivity].
  destruct (read_result _ (path_join cache_dir "metadata.json")); [|reflexivity].
  unfold json_load. destruct (json_loads _); reflexivity.
Qed.

(** *** Paths of an entry *)

Lemma not_prefix_imgs (p : path) (name : string) :
  name <> "imgs" -> ~ (p ++ ["imgs"])%list `prefix_of` (p ++ [name])%list.
Proof.
  intros Hn [k Hk]. rewrite <- app_assoc in Hk. apply app_inv_head in Hk.
  injection Hk as Hk _. exact (Hn Hk).
Qed.

Lemma img_file_ne (p : path) (i : nat) (name : string) :
  (p ++ ["imgs"; (pretty i ++ ".jpg")%string])%list <> (p ++ [name])%list.
Proof. apply app_len_ne. simpl. lia. Qed.

Lemma lookup_insert_other (m : gmap path string) (p q : path) (v : string) :
  p <> q -> <[p := v]> m !! q = m !! q.
Proof. intros H. apply lookup_insert_ne. exact H. Qed.

(** Image [j] of a successful [save_imgs folder i] is the file
    [folder/(i + j).jpg]. *)
Lemma save_imgs_stores (folder : path) (i : nat) (l : list Img) (s s' : St) :
  save_imgs folder i l s = (s', Ok tt) ->
  forall j img, l !! j = Some img ->
  fs_files (st_fs s') !! (folder ++ [(pretty (i + j) ++ ".jpg")%string])%list = Some (img_jpeg img).
Proof.
  revert i s. induction l as [|img0 l IH]; intros i s H j img Hj; [discriminate|].
  simpl in H. unfold bind in H.
  destruct (write_text _ _ s) as [s1 [[]|e]] eqn:W; [|discriminate].
  destruct (write_text_cases _ _ _ _ _ W) as [(F1 & _)|(_ & e & [=] & _)].
  destruct j as [|j].
  - simpl in Hj. injection Hj as <-.
    destruct (confined_save_imgs_from folder (S i) l _ _ _ H) as [Fr _].
    rewrite Nat.add_0_r, Fr.
    + rewrite F1, img_path. simpl. apply lookup_insert_eq.
    + intros (k & Hk & Heq). apply app_inv_head in Heq. injection Heq as Heq.
      apply string_app_inv_r, (inj pretty) in Heq. lia.
  - simpl in Hj. rewrite <- Nat.add_succ_comm. exact (IH (S i) s1 H j img Hj).
Qed.

(** What [entry_writes] leaves in the entry's folder: on success the
    prompt, every image, the completion and the metadata; on [TypeError]
    (a [None] completion) the prompt, an empty completion, and the
    metadata file as it was. *)
Lemma entry_writes_spec (cd : path) (pt : string) (imgs0 : option (list Img))
    (x : option string) (d : string) (s s' : St) (r : res unit) :
  entry_writes cd pt imgs0 x d s = (s', r) ->
  (r = Ok tt -> exists t, x = Some t /\
     is_file (st_fs s') (path_join cd "prompt.txt") = true /\
     fs_files (st_fs s') !! path_join cd "completion.txt" = Some t /\
     fs_files (st_fs s') !! path_join cd "metadata.json" = Some d /\
     (forall l i img, imgs0 = Some l -> l !! i = Some img ->
        fs_files (st_fs s') !! (cd ++ ["imgs"; (pretty i ++ ".jpg")%string])%list = Some (img_jpeg img))) /\
  (r = Err TypeError -> x = None /\
     is_file (st_fs s') (path_join cd "prompt.txt") = true /\
     fs_files (st_fs s') !! path_join cd "completion.txt" = Some "" /\
     fs_files (st_fs s') !! path_join cd "metadata.json" =
       fs_files (st_fs s) !! path_join cd "metadata.json").
Proof.
  unfold entry_writes. rewrite CacheFacts.path_join_prompt, completion_path, metadata_path.
  assert (Npc : (cd ++ ["prompt.txt"])%list <> (cd ++ ["completion.txt"])%list)
    by (apply app_single_ne; discriminate).
  assert (Npm : (cd ++ ["prompt.txt"])%list <> (cd ++ ["metadata.json"])%list)
    by (apply app_single_ne; discriminate).
  assert (Ncm : (cd ++ ["completion.txt"])%list <> (cd ++ ["metadata.json"])%list)
    by (apply app_single_ne; discriminate).
  unfold bind at 1.
  destruct (write_text (cd ++ ["prompt.txt"])%list (Some pt) s) as [s1 [[]|e1]] eqn:W1.
  2:{ intros [= <- <-].
      destruct (write_text_cases _ _ _ _ _ W1) as [(_ & [=])|(_ & e & [= <-] & He)].
      split; [discriminate | intros [= E]; contradiction]. }
  destruct (write_text_cases _ _ _ _ _ W1) as [(F1 & _)|(_ & e & [=] & _)].
  assert (P1 : fs_files (st_fs s1) !! (cd ++ ["prompt.txt"])%list = Some pt)
    by (rewrite F1; apply lookup_insert_eq).
  unfold bind at 1.
  destruct (save_query_imgs cd imgs0 s1) as [s2 [[]|e2]] eqn:W2.
  2:{ intros [= <- <-]. pose proof (nte_save_query_imgs cd imgs0 s1) as N.
      rewrite W2 in N. split; [discriminate | intros [= E]; subst; contradiction]. }
  destruct (confined_save_query_imgs cd imgs0 _ _ _ W2) as [Fr2 _].
  assert (P2 : fs_files (st_fs s2) !! (cd ++ ["prompt.txt"])%list = Some pt)
    by (rewrite Fr2 by (apply not_prefix_imgs; discriminate); exact P1).
  assert (M2 : fs_files (st_fs s2) !! (cd ++ ["metadata.json"])%list =
               fs_files (st_fs s) !! (cd ++ ["metadata.json"])%list).
  { rewrite Fr2 by (apply not_prefix_imgs; discriminate). rewrite F1.
    apply lookup_insert_other. exact Npm. }
  assert (I2 : forall l i img, imgs0 = Some l -> l !! i = Some img ->
     fs_files (st_fs s2) !! (cd ++ ["imgs"; (pretty i ++ ".jpg")%string])%list = Some (img_jpeg img)).
  { intros l i img -> Hi. revert W2. simpl. unfold bind at 1.
    destruct (mkdir_exist_ok _ s1) as [s3 [[]|e]] eqn:Mk; [|discriminate].
    try rewrite imgs_path. intros W2.
    pose proof (save_imgs_stores _ 0 l _ _ W2 i img Hi) as Hs.
    rewrite <- app_assoc in Hs. exact Hs. }
  unfold bind at 1.
  destruct (write_text (cd ++ ["completion.txt"])%list x s2) as [s3 [[]|e3]] eqn:W3.
  - destruct (write_text_cases _ _ _ _ _ W3) as [(F3 & R3)|(_ & e & [=] & _)].
    destruct x as [t|]; [|discriminate]. simpl in F3.
    intros W4.
    destruct (write_text_cases _ _ _ _ _ W4) as [(F4 & ->)|(-> & e & -> & He)].
    + split; [|discriminate]. intros _. exists t. split; [reflexivity|].
      unfold is_file. rewrite F4, F3. cbn [fs_files default].
      rewrite (lookup_insert_other _ _ _ _ (not_eq_sym Npm)),
              (lookup_insert_other _ _ _ _ (not_eq_sym Npc)), P2.
      split; [reflexivity|].
      rewrite (lookup_insert_other _ _ _ _ (not_eq_sym Ncm)), lookup_insert_eq.
      split; [reflexivity|]. split; [apply lookup_insert_eq|].
      intros l i img Hl Hi.
      rewrite (lookup_insert_other _ _ _ _ (not_eq_sym (img_file_ne _ _ _))),
              (lookup_insert_other _ _ _ _ (not_eq_sym (img_file_ne _ _ _))).
      exact (I2 l i img Hl Hi).
    + split; [discriminate | intros [= E]; contradiction].
  - intros [= <- <-]. split; [discriminate|]. intros [= ->].
    destruct (write_text_cases _ _ _ _ _ W3) as [(F3 & R3)|(_ & e & [= <-] & He)];
      [|contradiction].
    destruct x as [t|]; [discriminate|]. simpl in F3.
    split; [reflexivity|].
    unfold is_file. rewrite F3. cbn [fs_files default].
    rewrite (lookup_insert_other _ _ _ _ (not_eq_sym Npc)), P2.
    split; [reflexivity|]. split; [apply lookup_insert_eq|].
    rewrite (lookup_insert_other _ _ _ _ Ncm). exact M2.
Qed.

(** Reading back an entry whose completion and metadata files hold [t]
    and [d]: it returns exactly when both decode and the metadata's text
    is JSON. *)
Lemma load_outcome_written {Meta} (json_loads : string -> option Meta) (folder : path)
    (fs : FS) (t d : string) (r : Response Meta) :
  fs_files fs !! path_join folder "completion.txt" = Some t ->
  fs_files fs !! path_join folder "metadata.json" = Some d ->
  load_outcome json_loads folder fs = Ok r <->
  utf8_valid t = true /\ utf8_valid d = true /\
  exists m, json_loads (translate_newlines d) = Some m /\
            r = mkResponse (Some (translate_newlines t)) m.
Proof.
  intros Ht Hd. unfold load_outcome, read_result. rewrite Ht, Hd. unfold decode_text.
  destruct (utf8_valid t); [|split; [discriminate | intros [[=] _]]].
  destruct (utf8_valid d); [|split; [discriminate | intros (_ & [=] & _)]].
  destruct (json_loads (translate_newlines d)) as [m|] eqn:J.
  - split.
    + intros [= <-]. split; [reflexivity|]. split; [reflexivity|]. exists m. split; reflexivity.
    + intros (_ & _ & m' & J' & ->). injection J' as <-. reflexivity.
  - split; [discriminate | intros (_ & _ & m' & J' & _); congruence].
Qed.

(** Reading back an entry with an empty completion and the metadata file
    of [fs0]. *)
Lemma load_outcome_empty_completion {Meta} (json_loads : string -> option Meta)
    (folder : path) (fs fs0 : FS) :
  fs_files fs !! path_join folder "completion.txt" = Some "" ->
  fs_files fs !! path_join folder "metadata.json" =
    fs_files fs0 !! path_join folder "metadata.json" ->
  forall r', load_outcome json_loads folder fs = Ok r' <->
    exists metadata_bytes m,
      fs_files fs0 !! path_join folder "metadata.json" = Some metadata_bytes /\
      utf8_valid metadata_bytes = true /\
      json_loads (translate_newlines metadata_bytes) = Some m /\ r' = mkResponse (Some "") m.
Proof.
  intros C Md r'.
  destruct (fs_files fs0 !! path_join folder "metadata.json") as [mb|] eqn:E.
  - rewrite (load_outcome_written json_loads folder fs "" mb r' C Md). split.
    + intros (_ & V & m & J & ->). exists mb, m. auto.
    + intros (mb' & m & [= <-] & V & J & ->). split; [reflexivity|]. split; [exact V|].
      exists m. auto.
  - split; [|intros (mb' & m & [=] & _)].
    unfold load_outcome, read_result. rewrite C, Md. unfold decode_text. simpl.
    destruct (is_dir _ _); discriminate.
Qed.

End SaveFacts.

(** ** Saving and loading a cache entry *)

Module SaveLoadFacts.
Import FSFacts CacheView ClientFacts EntryFacts SaveFacts.

Section Entry.
Context {Meta : Type} (json_dumps : Meta -> string) (json_loads : string -> option Meta)
  (get_readable_id : Query -> string)
  (self : FilePretrainedLargeModelCache) (query : Query) (model_id : string).

Local Abbreviation folder := (cache_folder get_readable_id self query model_id).
Local Abbreviation lookup := (try_load_response json_loads get_readable_id self query model_id).
Local Abbreviation save_entry := (save json_dumps get_readable_id self query model_id).

Lemma save_eq (response : Response Meta) :
  save_entry response =
  let* cache_dir := _get_cache_dir_for_query get_readable_id self query model_id in
  entry_writes cache_dir (prompt query) (imgs query) (text response)
    (json_dumps (metadata response)).
Proof. reflexivity. Qed.

Lemma get_cache_dir_for_query_ok (s s1 : St) (p : path) :
  _get_cache_dir_for_query get_readable_id self query model_id s = (s1, Ok p) ->
  p = folder /\ is_dir (st_fs s1) folder = true /\ fs_files (st_fs s1) = fs_files (st_fs s).
Proof.
  unfold _get_cache_dir_for_query. cbv zeta. unfold bind.
  destruct (mkdir_exist_ok folder s) as [s2 [[]|e]] eqn:E; [|discriminate].
  intros [= <- <-]. split; [reflexivity|]. split; [exact (mkdir_ok_is_dir _ _ _ E)|].
  apply map_eq. intros q. destruct (confined_mkdir _ _ _ _ E) as [F _]. apply F. auto.
Qed.

Lemma get_cache_dir_for_query_nte :
  no_type_error (_get_cache_dir_for_query get_readable_id self query model_id).
Proof. apply nte_bind; [apply nte_mkdir | intros _; apply nte_ret]. Qed.

(** With the per-key directory in place and [prompt.txt] there, the lookup
    is the reads of [load_outcome]. *)
Lemma lookup_present (s : St) :
  is_dir (st_fs s) folder = true -> is_file (st_fs s) (path_join folder "prompt.txt") = true ->
  lookup s = (s, load_outcome json_loads folder (st_fs s)).
Proof.
  intros D P.
  assert (W : mkdir_would_succeed (st_fs s) folder = true)
    by (unfold mkdir_would_succeed; rewrite D; reflexivity).
  rewrite (CacheFacts.try_load_response_dir_ok json_loads get_readable_id self query model_id s W).
  assert (A : after_mkdir folder s = s) by (unfold after_mkdir; rewrite D; reflexivity).
  rewrite A. unfold path_exists. rewrite P, orb_true_r. reflexivity.
Qed.

(** [save] then [try_load_response]: once [save] has returned, looking
    the query up again gives back the saved response as text mode reads
    it: the text with its newlines translated (["a\r\nb"] comes back as
    ["a\nb"]), provided the text and the metadata's JSON are UTF-8 and the
    metadata survives [json.dump] and [json.load]. *)
Theorem cache_save_then_load (response : Response Meta) (s s' : St) (t : string) :
  text response = Some t -> utf8_valid t = true ->
  utf8_valid (json_dumps (metadata response)) = true ->
  json_loads (translate_newlines (json_dumps (metadata response))) = Some (metadata response) ->
  save_entry response s = (s', Ok tt) ->
  lookup s' = (s', Ok (mkResponse (Some (translate_newlines t)) (metadata response))).
Proof.
  intros Ht Vt Vd J. rewrite save_eq. unfold bind at 1.
  destruct (_get_cache_dir_for_query get_readable_id self query model_id s)
    as [s1 [p|e]] eqn:G; [|discriminate].
  destruct (get_cache_dir_for_query_ok _ _ _ G) as (-> & D1 & _).
  intros W. destruct (local_entry_writes _ _ _ _ _ _ _ _ W) as [_ L].
  destruct (proj1 (entry_writes_spec _ _ _ _ _ _ _ _ W) eq_refl) as (t' & Ht' & P & C & Md & _).
  rewrite Ht in Ht'. injection Ht' as <-.
  rewrite (lookup_present s' (is_dir_le _ _ _ L D1) P). f_equal.
  apply (load_outcome_written json_loads folder _ _ _ _ C Md).
  split; [exact Vt|]. split; [exact Vd|]. exists (metadata response). auto.
Qed.

(** [save] of a response whose text is [None] never returns: the
    completion file is opened (emptied) before [f.write(None)] raises
    [TypeError].  When that [TypeError] is raised, [prompt.txt] and an
    empty [completion.txt] are left behind and [metadata.json] is as it
    was, so a later lookup no longer misses: it returns the empty
    completion with whatever metadata was there before, or raises an
    error other than [ResponseNotFound]. *)
Theorem cache_save_none_text (response : Response Meta) (s s' : St) (r : res unit) :
  text response = None ->
  save_entry response s = (s', r) ->
  r <> Ok tt /\
  (r = Err TypeError ->
     fs_files (st_fs s') !! path_join folder "completion.txt" = Some "" /\
     fs_files (st_fs s') !! path_join folder "metadata.json" =
       fs_files (st_fs s) !! path_join folder "metadata.json" /\
     snd (lookup s') <> Err ResponseNotFound /\
     forall r', snd (lookup s') = Ok r' <->
       exists metadata_bytes m,
         fs_files (st_fs s) !! path_join folder "metadata.json" = Some metadata_bytes /\
         utf8_valid metadata_bytes = true /\
         json_loads (translate_newlines metadata_bytes) = Some m /\ r' = mkResponse (Some "") m).
Proof.
  intros Hn. rewrite save_eq. unfold bind at 1.
  destruct (_get_cache_dir_for_query get_readable_id self query model_id s)
    as [s1 [p|e]] eqn:G.
  2:{ intros [= <- <-]. split; [discriminate|]. intros [= ->].
      pose proof (get_cache_dir_for_query_nte s) as N. rewrite G in N. contradiction. }
  destruct (get_cache_dir_for_query_ok _ _ _ G) as (-> & D1 & F1).
  intros W. destruct (local_entry_writes _ _ _ _ _ _ _ _ W) as [_ L].
  destruct (entry_writes_spec _ _ _ _ _ _ _ _ W) as [Hok Hte].
  split.
  { intros ->. destruct (Hok eq_refl) as (t & Ht & _). congruence. }
  intros ->. destruct (Hte eq_refl) as (_ & P & C & Md).
  rewrite F1 in Md.
  rewrite (lookup_present s' (is_dir_le _ _ _ L D1) P). simpl snd.
  split; [exact C|]. split; [exact Md|].
  split; [apply (CacheFacts.load_outcome_not_rnf json_loads get_readable_id self query model_id)|].
  exact (load_outcome_empty_completion json_loads folder _ _ C Md).
Qed.

(** What [save] writes: files only inside the query's folder, directories
    only the folder and its [imgs]; after a successful [save] the [i]-th
    image of the query is the file [imgs/i.jpg] of the folder. *)
Theorem cache_save_layout (response : Response Meta) (s s' : St) (r : res unit) :
  save_entry response s = (s', r) ->
  (forall p, ~ folder `prefix_of` p -> fs_files (st_fs s') !! p = fs_files (st_fs s) !! p) /\
  (forall d, d ∈ fs_dirs (st_fs s') ->
     d ∈ fs_dirs (st_fs s) \/ d = folder \/ d = (folder ++ ["imgs"])%list) /\
  (r = Ok tt -> forall l i img, imgs query = Some l -> l !! i = Some img ->
     fs_files (st_fs s') !! (folder ++ ["imgs"; (pretty i ++ ".jpg")%string])%list =
       Some (img_jpeg img)).
Proof.
  intros H.
  assert (Hc : confined (fun q => folder `prefix_of` q)
                 (fun d => d = folder \/ d = (folder ++ ["imgs"])%list)
                 (_get_cache_dir_for_query get_readable_id self query model_id)).
  { unfold _get_cache_dir_for_query. cbv zeta. apply confined_bind; [|intros _; apply confined_ret].
    eapply confined_mono; [| | apply confined_mkdir]; [intros _ [] | intros d Hd; left; exact Hd]. }
  assert (Fr : frame (fun q => folder `prefix_of` q)
                 (fun d => d = folder \/ d = (folder ++ ["imgs"])%list) (st_fs s) (st_fs s')).
  { revert H. rewrite save_eq. unfold bind at 1.
    destruct (_get_cache_dir_for_query get_readable_id self query model_id s)
      as [s1 [p|e]] eqn:G.
    - destruct (get_cache_dir_for_query_ok _ _ _ G) as (-> & _ & _). intros W.
      eapply frame_trans; [exact (Hc _ _ _ G)|].
      refine (confined_mono _ _ _ _ _ _ _ (confined_entry_writes _ _ _ _ _) _ _ _ W).
      + intros q Hq. exact Hq.
      + intros d Hd. right. exact Hd.
    - intros [= <- _]. exact (Hc _ _ _ G). }
  destruct Fr as [Ff Fd]. split; [exact Ff|]. split.
  { intros d Hd. destruct (Fd d Hd) as [H1|[H1|H1]]; auto. }
  intros -> l i img Hl Hi. revert H. rewrite save_eq. unfold bind at 1.
  destruct (_get_cache_dir_for_query get_readable_id self query model_id s)
    as [s1 [p|e]] eqn:G; [|discriminate].
  destruct (get_cache_dir_for_query_ok _ _ _ G) as (-> & _ & _). intros W.
  destruct (proj1 (entry_writes_spec _ _ _ _ _ _ _ _ W) eq_refl) as (_ & _ & _ & _ & _ & I).
  exact (I l i img Hl Hi).
Qed.

End Entry.

End SaveLoadFacts.

(** ** What a call to [query] leaves in the cache *)

Module QueryCacheFacts.
Import FSFacts CacheView ClientFacts EntryFacts SaveFacts.

Section Query.
Context {Meta : Type} (json_dumps : Meta -> string) (json_loads : string -> option Meta)
  (query_get_id : Query -> string) (self : PretrainedLargeModel Meta)
  (prompt_text : string) (imgs0 : option (list Img))
  (hyperparameters0 : option (list (string * string))).

Local Abbreviation q := (mkQuery prompt_text imgs0 hyperparameters0).
Local Abbreviation folder := (model_folder query_get_id self q).
Local Abbreviation prompt_file := (path_join (model_folder query_get_id self q) "prompt.txt").
Local Abbreviation root := (model_cache_dir self).
Local Abbreviation call :=
  (query json_dumps json_loads query_get_id self prompt_text imgs0 hyperparameters0).

Lemma query_and_cache_eq (cache_dir : path) :
  query_and_cache json_dumps self q cache_dir =
  if use_cache_only self then raise (ValueError "No cached response found for prompt.") else
  let* response := _run_query self q in
  entry_writes cache_dir (prompt q) (imgs q) (text response) (json_dumps (metadata response)).
Proof. reflexivity. Qed.

Lemma query_eq :
  call =
  let* cache_dir := _get_cache_dir query_get_id self q in
  let* hit := exists_path (path_join cache_dir "prompt.txt") in
  let* _ := (if negb hit then query_and_cache json_dumps self q cache_dir else ret tt) in
  load_cached json_loads cache_dir.
Proof. reflexivity. Qed.

Lemma confined_get_cache_dir :
  confined (fun _ => False) (fun d => d = root \/ d = folder) (_get_cache_dir query_get_id self q).
Proof.
  unfold _get_cache_dir. cbv zeta.
  apply confined_bind; [|intros _; apply confined_bind; [|intros _; apply confined_ret]].
  - eapply confined_mono; [| | apply confined_mkdir]; [intros _ [] | intros d Hd; left; exact Hd].
  - eapply confined_mono; [| | apply confined_mkdir]; [intros _ [] | intros d Hd; right; exact Hd].
Qed.

Lemma get_cache_dir_files (s s2 : St) (r : res path) :
  _get_cache_dir query_get_id self q s = (s2, r) -> fs_files (st_fs s2) = fs_files (st_fs s).
Proof.
  intros G. apply map_eq. intros p. destruct (confined_get_cache_dir _ _ _ G) as [F _].
  apply F. auto.
Qed.

Lemma get_cache_dir_nte : no_type_error (_get_cache_dir query_get_id self q).
Proof.
  unfold _get_cache_dir. cbv zeta.
  apply nte_bind; [apply nte_mkdir | intros _; apply nte_bind; [apply nte_mkdir | intros _; apply nte_ret]].
Qed.

(** The folder of the query is below the cache directory and is not its
    [prompt.txt]. *)
Lemma prompt_file_not_folder : prompt_file <> folder.
Proof.
  rewrite CacheFacts.path_join_prompt. intros Heq.
  apply (f_equal length) in Heq. rewrite length_app in Heq. simpl in Heq. lia.
Qed.

(** A state whose files are those of [s] and whose new directories are at
    most the cache directory and the query's folder has no entry when [s]
    has none. *)
Lemma has_entry_stays_false (s s1 : St) :
  has_entry query_get_id self q s = false ->
  fs_files (st_fs s1) = fs_files (st_fs s) ->
  (forall d, d ∈ fs_dirs (st_fs s1) -> d ∈ fs_dirs (st_fs s) \/ d = root \/ d = folder) ->
  has_entry query_get_id self q s1 = false.
Proof.
  unfold has_entry. cbv zeta. intros He Hf Hd.
  apply orb_false_iff in He as [Hp Hr]. rewrite Hr, orb_false_r.
  unfold path_exists, is_dir, is_file in *. rewrite Hf.
  apply orb_false_iff in Hp as [Hdir Hfile]. rewrite Hfile, orb_false_r.
  apply orb_false_iff in Hdir as [H0 Hin]. rewrite H0. simpl.
  apply bool_decide_eq_false. intros Hin'.
  destruct (Hd _ Hin') as [H|[H|H]].
  - revert Hin. rewrite bool_decide_eq_true_2 by exact H. discriminate.
  - revert Hr. rewrite bool_decide_eq_true_2 by exact H. discriminate.
  - exact (prompt_file_not_folder H).
Qed.

(** On a miss, the response [query] returns is the remote model's, as
    read back from the files it has just written: its text (never [None],
    and UTF-8) with its newlines translated, and its metadata after
    [json.dump] and [json.load]. *)
Theorem query_miss_returns_remote (s s1 : St) (r1 : Response Meta) :
  has_entry query_get_id self q s = false ->
  call s = (s1, Ok r1) ->
  exists r t, run_query self (st_calls s) q = Ok r /\ text r = Some t /\
    utf8_valid t = true /\ text r1 = Some (translate_newlines t) /\
    utf8_valid (json_dumps (metadata r)) = true /\
    json_loads (translate_newlines (json_dumps (metadata r))) = Some (metadata r1).
Proof.
  intros He. rewrite query_eq. unfold bind at 1.
  destruct (_get_cache_dir query_get_id self q s) as [s2 [p|e]] eqn:G; [|discriminate].
  destruct (get_cache_dir_ok query_get_id self prompt_text imgs0
              hyperparameters0 _ _ _ G) as (-> & C2 & L2 & R2 & F2 & E2).
  unfold bind at 1, exists_path. rewrite E2, He. cbn [negb]. unfold bind at 1.
  destruct (query_and_cache json_dumps self q folder s2) as [s3 [[]|e]] eqn:Q; [|discriminate].
  rewrite query_and_cache_eq in Q. destruct (use_cache_only self); [discriminate|].
  unfold bind at 1, _run_query in Q.
  destruct (run_query self (st_calls s2) q) as [r|e] eqn:Rq; [|discriminate].
  rewrite C2 in Rq.
  destruct (proj1 (entry_writes_spec _ _ _ _ _ _ _ _ Q) eq_refl) as (t & Ht & _ & C & Md & _).
  exists r, t. split; [exact Rq|]. split; [exact Ht|].
  match goal with H : load_cached _ _ _ = _ |- _ => revert H end.
  rewrite load_cached_outcome. intros [= _ L].
  destruct (proj1 (load_outcome_written json_loads folder _ _ _ _ C Md) L)
    as (Vt & Vd & m & J & ->).
  split; [exact Vt|]. split; [reflexivity|]. split; [exact Vd|]. exact J.
Qed.

(** When the remote model raises on a miss, nothing is cached: [query]
    raises that error after its one remote call (or, before any remote
    call, the [ValueError] of a cache-only client or [mkdir]'s error), no
    file changes, and the query still has no entry, so the next call asks
    the model again. *)
Theorem query_remote_error_nothing_cached (s s1 : St) (e : exn) (r1 : res (Response Meta)) :
  has_entry query_get_id self q s = false ->
  run_query self (st_calls s) q = Err e ->
  call s = (s1, r1) ->
  fs_files (st_fs s1) = fs_files (st_fs s) /\
  has_entry query_get_id self q s1 = false /\
  ((r1 = Err e /\ st_calls s1 = S (st_calls s)) \/
   (is_err r1 = true /\ st_calls s1 = st_calls s)).
Proof.
  intros He Rq. rewrite query_eq. unfold bind at 1.
  destruct (_get_cache_dir query_get_id self q s) as [s2 [p|e2]] eqn:G.
  2:{ intros [= <- <-].
      pose proof (get_cache_dir_files _ _ _ G) as Hf.
      destruct (confined_get_cache_dir _ _ _ G) as [_ Hd].
      split; [exact Hf|]. split; [exact (has_entry_stays_false s s2 He Hf Hd)|].
      right. split; [reflexivity|].
      assert (Hl : local (_get_cache_dir query_get_id self q)).
      { unfold _get_cache_dir. apply local_bind; [apply local_mkdir | intros _].
        apply local_bind; [apply local_mkdir | intros _; apply local_ret]. }
      exact (proj1 (Hl _ _ _ G)). }
  pose proof (get_cache_dir_files _ _ _ G) as Hf.
  destruct (confined_get_cache_dir _ _ _ G) as [_ Hd].
  destruct (get_cache_dir_ok query_get_id self prompt_text imgs0
              hyperparameters0 _ _ _ G) as (-> & C2 & _ & _ & _ & E2).
  unfold bind at 1, exists_path. rewrite E2, He. cbn [negb]. unfold bind at 1.
  rewrite query_and_cache_eq. destruct (use_cache_only self).
  - unfold raise. intros [= <- <-].
    split; [exact Hf|]. split; [exact (has_entry_stays_false s s2 He Hf Hd)|].
    right. split; [reflexivity | exact C2].
  - unfold bind at 1, _run_query. rewrite C2, Rq. intros [= <- <-].
    split; [exact Hf|]. split; [exact (has_entry_stays_false s _ He Hf Hd)|].
    left. split; reflexivity.
Qed.

(** When the remote model answers a miss with [None] text, [query] never
    returns: [save]'s [f.write(None)] raises [TypeError] (unless a
    directory cannot be made first).  That [TypeError] leaves a poisoned
    entry: [prompt.txt] and an empty [completion.txt] exist, so every later
    call makes no remote call, changes nothing, and returns the empty
    completion with the [metadata.json] that was there before the call, if
    any (and raises otherwise). *)
Theorem query_none_text_poisons (s s1 : St) (r : Response Meta) (r1 : res (Response Meta)) :
  has_entry query_get_id self q s = false ->
  run_query self (st_calls s) q = Ok r -> text r = None ->
  call s = (s1, r1) ->
  is_err r1 = true /\
  (r1 = Err TypeError ->
     st_calls s1 = S (st_calls s) /\ has_entry query_get_id self q s1 = true /\
     fst (call s1) = s1 /\
     forall r', snd (call s1) = Ok r' <->
       exists metadata_bytes m,
         fs_files (st_fs s) !! path_join folder "metadata.json" = Some metadata_bytes /\
         utf8_valid metadata_bytes = true /\
         json_loads (translate_newlines metadata_bytes) = Some m /\ r' = mkResponse (Some "") m).
Proof.
  intros He Rq Hn Hcall0. pose proof Hcall0 as Hc0. rewrite query_eq in Hc0. revert Hc0.
  unfold bind at 1.
  destruct (_get_cache_dir query_get_id self q s) as [s2 [p|e2]] eqn:G.
  2:{ intros [= <- <-]. split; [reflexivity|]. intros [= ->].
      pose proof (get_cache_dir_nte s) as N. rewrite G in N. contradiction. }
  pose proof (get_cache_dir_files _ _ _ G) as Hf.
  destruct (get_cache_dir_ok query_get_id self prompt_text imgs0
              hyperparameters0 _ _ _ G) as (-> & C2 & L2 & R2 & F2 & E2).
  unfold bind at 1, exists_path. rewrite E2, He. cbn [negb]. unfold bind at 1.
  destruct (query_and_cache json_dumps self q folder s2) as [s3 [[]|e3]] eqn:Q.
  { exfalso. rewrite query_and_cache_eq in Q. destruct (use_cache_only self); [discriminate|].
    unfold bind at 1, _run_query in Q. rewrite C2, Rq in Q.
    destruct (proj1 (entry_writes_spec _ _ _ _ _ _ _ _ Q) eq_refl) as (t & Ht & _).
    congruence. }
  intros [= <- <-]. split; [reflexivity|]. intros [= ->].
  rewrite query_and_cache_eq in Q. destruct (use_cache_only self); [discriminate|].
  unfold bind at 1, _run_query in Q. rewrite C2, Rq in Q.
  destruct (local_entry_writes _ _ _ _ _ _ _ _ Q) as [C3 L3].
  destruct (proj2 (entry_writes_spec _ _ _ _ _ _ _ _ Q) eq_refl) as (_ & P & C & Md).
  cbn [st_calls st_fs] in C3, L3, Md. rewrite Hf in Md.
  assert (P' : path_exists (st_fs s3) prompt_file = true)
    by (unfold path_exists; rewrite P; apply orb_true_r).
  assert (Hcall : call s3 = (s3, load_outcome json_loads folder (st_fs s3))).
  { rewrite (query_hit json_dumps json_loads query_get_id self prompt_text imgs0 hyperparameters0
               s3 (is_dir_le _ _ _ L3 R2) (is_dir_le _ _ _ L3 F2) P').
    apply load_cached_outcome. }
  split; [rewrite C3; reflexivity|].
  split; [unfold has_entry; cbv zeta; rewrite P'; reflexivity|].
  rewrite Hcall. split; [reflexivity|].
  simpl snd. exact (load_outcome_empty_completion json_loads folder _ _ C Md).
Qed.

(** [query] writes files only inside the query's folder and creates no
    directory but the cache directory, the folder and its [imgs]. *)
Theorem query_confined (s s1 : St) (r1 : res (Response Meta)) :
  call s = (s1, r1) ->
  (forall p, ~ folder `prefix_of` p -> fs_files (st_fs s1) !! p = fs_files (st_fs s) !! p) /\
  (forall d, d ∈ fs_dirs (st_fs s1) ->
     d ∈ fs_dirs (st_fs s) \/ d = root \/ d = folder \/ d = (folder ++ ["imgs"])%list).
Proof.
  intros H.
  assert (Fr : frame (fun p => folder `prefix_of` p)
                 (fun d => d = root \/ d = folder \/ d = (folder ++ ["imgs"])%list)
                 (st_fs s) (st_fs s1)).
  { revert H. rewrite query_eq. unfold bind at 1.
    assert (Hg : confined (fun p => folder `prefix_of` p)
                   (fun d => d = root \/ d = folder \/ d = (folder ++ ["imgs"])%list)
                   (_get_cache_dir query_get_id self q)).
    { eapply confined_mono; [| | apply confined_get_cache_dir]; [intros _ [] |].
      intros d [Hd|Hd]; [left | right; left]; exact Hd. }
    destruct (_get_cache_dir query_get_id self q s) as [s2 [p|e2]] eqn:G.
    2:{ intros [= <- _]. exact (Hg _ _ _ G). }
    destruct (get_cache_dir_ok query_get_id self prompt_text imgs0
                hyperparameters0 _ _ _ G) as (-> & _).
    intros H. eapply frame_trans; [exact (Hg _ _ _ G)|]. revert H. apply confined_bind.
    { apply confined_exists. }
    intros hit. apply confined_bind; [|intros _; apply confined_load_cached].
    destruct (negb hit); [|apply confined_ret].
    rewrite query_and_cache_eq. destruct (use_cache_only self); [apply confined_raise|].
    apply confined_bind; [apply confined_run_query | intros response].
    eapply confined_mono; [| | apply confined_entry_writes]; [intros p Hp; exact Hp|].
    intros d Hd. right. right. exact Hd. }
  destruct Fr as [Ff Fd]. split; [exact Ff|].
  intros d Hd. destruct (Fd d Hd) as [H1|[H1|[H1|H1]]]; auto.
Qed.

End Query.

End QueryCacheFacts.

(** ** Concrete instances of the further properties *)

Module ExtraExamples.

(** A reply with one fenced block: the extracted code has no fence left. *)
Lemma extracted_code_has_no_fence_witness :
  let t := ("Here:```python" ++ nl ++ "x = 1" ++ nl ++ "```done")%string in
  let c := (nl ++ "x = 1" ++ nl)%string in
  parse_python_code_from_text t = Ok (Some c) /\
  ((forall j, Occurs.occurs_at fence c j = false) /\
   parse_python_code_from_text c = Ok None /\
   parse_python_code_from_llm_response c = Ok c).
Proof.
  intros t c.
  assert (H : parse_python_code_from_text t = Ok (Some c)) by (vm_compute; reflexivity).
  split; [exact H | exact (ExtractionMore.extracted_code_has_no_fence t c H)].
Defined.

Lemma fenced_block_round_trip_witness :
  let pre := "Sure: "%string in
  let code := (nl ++ "def f(): return 1" ++ nl)%string in
  let post := " Done."%string in
  Chars.no_backtick pre = true /\ Chars.no_backtick code = true /\
  (parse_python_code_from_text (pre ++ "```python" ++ code ++ "```" ++ post) = Ok (Some code) /\
   parse_python_code_from_llm_response (pre ++ "```python" ++ code ++ "```" ++ post) = Ok code).
Proof.
  intros pre code post.
  assert (H1 : Chars.no_backtick pre = true) by reflexivity.
  assert (H2 : Chars.no_backtick code = true) by reflexivity.
  split; [exact H1|]. split; [exact H2|].
  exact (ExtractionMore.fenced_block_round_trip pre code post H1 H2).
Defined.

(** A digest function that always returns a 64-digit lowercase hex
    string above [2^255]. *)
Lemma consistent_hash_nonnegative_witness :
  let sha := fun _ : string =>
    "8000000000000000000000000000000000000000000000000000000000000001"%string in
  (forall s, Hashing.is_hexdigest (sha s) = true) /\
  exists hash_int z,
    Hashing.int_base16 (sha (id "obj"%string)) = Ok hash_int /\ (0 <= hash_int < 2 ^ 256)%Z /\
    Hashing.consistent_hash id sha "obj"%string = Ok z /\
    (0 <= z < 2 ^ 256)%Z /\ ((z < 2 ^ 63)%Z <-> (hash_int < 2 ^ 63 + 2 ^ 6)%Z).
Proof.
  intros sha.
  assert (H : forall s, Hashing.is_hexdigest (sha s) = true) by (intros s; reflexivity).
  split; [exact H | exact (HashFacts.consistent_hash_nonnegative id sha "obj"%string H)].
Defined.

(** With the identity as digest: [0x7fffffffffffffc0] and
    [0x8000000000000000] collide. *)
Lemma consistent_hash_collision_witness :
  let x := "7fffffffffffffc0"%string in
  let y := "8000000000000000"%string in
  Hashing.int_base16 (id (id x)) = Ok (2 ^ 63 - 64)%Z /\
  Hashing.int_base16 (id (id y)) = Ok (2 ^ 63)%Z /\
  (Hashing.consistent_hash id id x = Hashing.consistent_hash id id y <->
   (2 ^ 63 - 64 = 2 ^ 63)%Z \/
   ((2 ^ 63 - 64 <= 2 ^ 63 - 64 < 2 ^ 63)%Z /\ (2 ^ 63)%Z = (2 ^ 63 - 64 + 64)%Z) \/
   ((2 ^ 63 - 64 <= 2 ^ 63 < 2 ^ 63)%Z /\ (2 ^ 63 - 64)%Z = (2 ^ 63 + 64)%Z)).
Proof.
  intros x y.
  assert (Hx : Hashing.int_base16 (id (id x)) = Ok (2 ^ 63 - 64)%Z) by (vm_compute; reflexivity).
  assert (Hy : Hashing.int_base16 (id (id y)) = Ok (2 ^ 63)%Z) by (vm_compute; reflexivity).
  split; [exact Hx|]. split; [exact Hy|].
  exact (HashFacts.consistent_hash_collision id id x y _ _ Hx Hy).
Defined.

(** A check of [f(x) = 2 * x] on the inputs [1] and [2] requiring an
    output below [3]: the second input fails. *)
Lemma output_check_first_failure_witness :
  let self := OutputCheck.mkFunctionOutputRepromptCheck "f"
                [1; 2] [fun o => Ok (Nat.ltb o 3); fun o => Ok (Nat.ltb o 3)] in
  let t := ("```python" ++ nl ++ "def f(x): return 2 * x" ++ nl ++ "```")%string in
  let code := (nl ++ "def f(x): return 2 * x" ++ nl)%string in
  let create := fun (_ : Query) (_ : Response unit) (msg : string) => mkQuery msg None None in
  let run := fun (_ : SynthesizedPythonFunction) (x : nat) => Ok (2 * x) in
  parse_python_code_from_text t = Ok (Some code) /\
  length (OutputCheck._inputs self) = length (OutputCheck._output_check_fns self) /\
  let fn := mkSynthesizedPythonFunction (OutputCheck._function_name self) code in
  let response := mkResponse (Some t) tt in
  let get := OutputCheck.get_reprompt create run pretty pretty self in
  (get (mkQuery "q" None None) response = Ok None <->
     Forall2 (OutputCheckFacts.passes run fn) (OutputCheck._inputs self)
       (OutputCheck._output_check_fns self)) /\
  (forall q', get (mkQuery "q" None None) response = Ok (Some q') <->
     exists i fn_in check_fn fn_out,
       OutputCheck._inputs self !! i = Some fn_in /\
       OutputCheck._output_check_fns self !! i = Some check_fn /\
       (forall j x f, j < i -> OutputCheck._inputs self !! j = Some x ->
          OutputCheck._output_check_fns self !! j = Some f ->
          OutputCheckFacts.passes run fn x f) /\
       run fn fn_in = Ok fn_out /\ check_fn fn_out = Ok false /\
       q' = create (mkQuery "q" None None) response
              (OutputCheck.invalid_output_msg pretty pretty
                 (OutputCheck._function_name self) fn_in fn_out)).
Proof.
  intros self t code create run.
  assert (H1 : parse_python_code_from_text t = Ok (Some code)) by (vm_compute; reflexivity).
  assert (H2 : length (OutputCheck._inputs self) = length (OutputCheck._output_check_fns self))
    by reflexivity.
  split; [exact H1|]. split; [exact H2|].
  exact (OutputCheckFacts.output_check_first_failure create run pretty pretty self
           (mkQuery "q" None None) t tt code H1 H2).
Defined.

End ExtraExamples.

(** ** Concrete cache entries and calls *)

Module EntryExamples.
Import Demo.

(** Saving the text ["a\r\nb"] for a query with one image under
    [cache/], then looking it up: the text comes back as ["a\nb"]. *)
Lemma cache_save_then_load_witness :
  let self := {| cache_cache_dir := ["cache"] |} in
  let query := mkQuery "hi" (Some [mkImg "JPEG"]) None in
  let t := ("a" ++ String CR (String LF "b"))%string in
  let response := mkResponse (Some t) tt in
  let s := mkSt (mkFS {[ ["cache"] ]} ∅) 0 in
  let s' := fst (save dumps prompt self query "canned" response s) in
  text response = Some t /\ utf8_valid t = true /\
  utf8_valid (dumps (metadata response)) = true /\
  loads (translate_newlines (dumps (metadata response))) = Some (metadata response) /\
  save dumps prompt self query "canned" response s = (s', Ok tt) /\
  try_load_response loads prompt self query "canned" s' =
    (s', Ok (mkResponse (Some (translate_newlines t)) (metadata response))) /\
  translate_newlines t = ("a" ++ String LF "b")%string.
Proof.
  intros self query t response s s'.
  assert (H1 : text response = Some t) by reflexivity.
  assert (H2 : utf8_valid t = true) by reflexivity.
  assert (H3 : utf8_valid (dumps (metadata response)) = true) by reflexivity.
  assert (H4 : loads (translate_newlines (dumps (metadata response))) = Some (metadata response))
    by reflexivity.
  assert (H5 : save dumps prompt self query "canned" response s = (s', Ok tt))
    by (vm_compute; reflexivity).
  split; [exact H1|]. split; [exact H2|]. split; [exact H3|]. split; [exact H4|].
  split; [exact H5|]. split; [|reflexivity].
  exact (SaveLoadFacts.cache_save_then_load dumps loads prompt self query "canned"
           response s s' t H1 H2 H3 H4 H5).
Defined.

(** Saving a response whose text is [None] where an earlier entry left
    [metadata.json]. *)
Lemma cache_save_none_text_witness :
  let self := {| cache_cache_dir := ["cache"] |} in
  let query := mkQuery "hi" None None in
  let response := mkResponse None tt in
  let folder := ["cache"; "canned_hi"] in
  let s := mkSt (mkFS {[ ["cache"]; folder ]}
                      (<[ (folder ++ ["metadata.json"])%list := "{}" ]> ∅)) 0 in
  let s' := fst (save dumps prompt self query "canned" response s) in
  let r := snd (save dumps prompt self query "canned" response s) in
  text response = None /\
  save dumps prompt self query "canned" response s = (s', r) /\
  r = Err TypeError /\
  (r <> Ok tt /\
   (r = Err TypeError ->
      fs_files (st_fs s') !! path_join (cache_folder prompt self query "canned") "completion.txt"
        = Some "" /\
      fs_files (st_fs s') !! path_join (cache_folder prompt self query "canned") "metadata.json" =
        fs_files (st_fs s) !! path_join (cache_folder prompt self query "canned") "metadata.json" /\
      snd (try_load_response loads prompt self query "canned" s') <> Err ResponseNotFound /\
      forall r', snd (try_load_response loads prompt self query "canned" s') = Ok r' <->
        exists metadata_bytes m,
          fs_files (st_fs s) !! path_join (cache_folder prompt self query "canned") "metadata.json"
            = Some metadata_bytes /\
          utf8_valid metadata_bytes = true /\
          loads (translate_newlines metadata_bytes) = Some m /\ r' = mkResponse (Some "") m)).
Proof.
  intros self query response folder s s' r.
  assert (H1 : text response = None) by reflexivity.
  assert (H2 : save dumps prompt self query "canned" response s = (s', r)) by reflexivity.
  split; [exact H1|]. split; [exact H2|]. split; [vm_compute; reflexivity|].
  exact (SaveLoadFacts.cache_save_none_text dumps loads prompt self query "canned"
           response s s' r H1 H2).
Defined.

Lemma cache_save_layout_witness :
  let self := {| cache_cache_dir := ["cache"] |} in
  let query := mkQuery "hi" (Some [mkImg "JPEG"; mkImg "PNG"]) None in
  let response := mkResponse (Some "Hi!") tt in
  let s := mkSt (mkFS {[ ["cache"] ]} ∅) 0 in
  let s' := fst (save dumps prompt self query "canned" response s) in
  let r := snd (save dumps prompt self query "canned" response s) in
  let folder := cache_folder prompt self query "canned" in
  save dumps prompt self query "canned" response s = (s', r) /\
  r = Ok tt /\
  ((forall p, ~ folder `prefix_of` p -> fs_files (st_fs s') !! p = fs_files (st_fs s) !! p) /\
   (forall d, d ∈ fs_dirs (st_fs s') ->
      d ∈ fs_dirs (st_fs s) \/ d = folder \/ d = (folder ++ ["imgs"])%list) /\
   (r = Ok tt -> forall l i img, imgs query = Some l -> l !! i = Some img ->
      fs_files (st_fs s') !! (folder ++ ["imgs"; (pretty i ++ ".jpg")%string])%list =
        Some (img_jpeg img))).
Proof.
  intros self query response s s' r folder.
  assert (H : save dumps prompt self query "canned" response s = (s', r)) by reflexivity.
  split; [exact H|]. split; [vm_compute; reflexivity|].
  exact (SaveLoadFacts.cache_save_layout dumps prompt self query "canned" response s s' r H).
Defined.

(** A miss of the canned model from an empty file system. *)
Lemma query_miss_returns_remote_witness :
  let call := query dumps loads prompt (canned false) "Hello!" None None in
  let s1 := fst (call empty_st) in
  has_entry prompt (canned false) (mkQuery "Hello!" None None) empty_st = false /\
  call empty_st = (s1, Ok (mkResponse (Some "Hi!") tt)) /\
  exists r t, run_query (canned false) (st_calls empty_st) (mkQuery "Hello!" None None) = Ok r /\
    text r = Some t /\ utf8_valid t = true /\
    text (mkResponse (Some "Hi!") tt) = Some (translate_newlines t) /\
    utf8_valid (dumps (metadata r)) = true /\
    loads (translate_newlines (dumps (metadata r))) = Some (metadata (mkResponse (Some "Hi!") tt)).
Proof.
  intros call s1.
  assert (H1 : has_entry prompt (canned false) (mkQuery "Hello!" None None) empty_st = false)
    by (vm_compute; reflexivity).
  assert (H2 : call empty_st = (s1, Ok (mkResponse (Some "Hi!") tt))) by (vm_compute; reflexivity).
  split; [exact H1|]. split; [exact H2|].
  exact (QueryCacheFacts.query_miss_returns_remote dumps loads prompt (canned false)
           "Hello!" None None empty_st s1 _ H1 H2).
Defined.

(** A model whose remote call raises. *)
Lemma query_remote_error_nothing_cached_witness :
  let failing : PretrainedLargeModel unit := {|
    get_id := "failing"; model_cache_dir := ["cache"]; use_cache_only := false;
    run_query := fun _ _ => Err (RemoteError "rate limit") |} in
  let call := query dumps loads prompt failing "Hello!" None None in
  let s1 := fst (call empty_st) in
  let r1 := snd (call empty_st) in
  has_entry prompt failing (mkQuery "Hello!" None None) empty_st = false /\
  run_query failing (st_calls empty_st) (mkQuery "Hello!" None None) = Err (RemoteError "rate limit") /\
  call empty_st = (s1, r1) /\
  r1 = Err (RemoteError "rate limit") /\
  (fs_files (st_fs s1) = fs_files (st_fs empty_st) /\
   has_entry prompt failing (mkQuery "Hello!" None None) s1 = false /\
   ((r1 = Err (RemoteError "rate limit") /\ st_calls s1 = S (st_calls empty_st)) \/
    (is_err r1 = true /\ st_calls s1 = st_calls empty_st))).
Proof.
  intros failing call s1 r1.
  assert (H1 : has_entry prompt failing (mkQuery "Hello!" None None) empty_st = false)
    by (vm_compute; reflexivity).
  assert (H2 : run_query failing (st_calls empty_st) (mkQuery "Hello!" None None) = Err (RemoteError "rate limit"))
    by reflexivity.
  assert (H3 : call empty_st = (s1, r1)) by reflexivity.
  split; [exact H1|]. split; [exact H2|]. split; [exact H3|]. split; [vm_compute; reflexivity|].
  exact (QueryCacheFacts.query_remote_error_nothing_cached dumps loads prompt failing
           "Hello!" None None empty_st s1 (RemoteError "rate limit") r1 H1 H2 H3).
Defined.

(** A model whose reply has no text: the first call raises [TypeError]. *)
Lemma query_none_text_poisons_witness :
  let silent : PretrainedLargeModel unit := {|
    get_id := "silent"; model_cache_dir := ["cache"]; use_cache_only := false;
    run_query := fun _ _ => Ok (mkResponse None tt) |} in
  let call := query dumps loads prompt silent "Hello!" None None in
  let s1 := fst (call empty_st) in
  let r1 := snd (call empty_st) in
  has_entry prompt silent (mkQuery "Hello!" None None) empty_st = false /\
  run_query silent (st_calls empty_st) (mkQuery "Hello!" None None) = Ok (mkResponse None tt) /\
  text (mkResponse (Meta := unit) None tt) = None /\
  call empty_st = (s1, r1) /\
  r1 = Err TypeError /\
  (is_err r1 = true /\
   (r1 = Err TypeError ->
      st_calls s1 = S (st_calls empty_st) /\
      has_entry prompt silent (mkQuery "Hello!" None None) s1 = true /\
      fst (call s1) = s1 /\
      forall r', snd (call s1) = Ok r' <->
        exists metadata_bytes m,
          fs_files (st_fs empty_st) !!
            path_join (model_folder prompt silent (mkQuery "Hello!" None None)) "metadata.json"
            = Some metadata_bytes /\
          utf8_valid metadata_bytes = true /\
          loads (translate_newlines metadata_bytes) = Some m /\ r' = mkResponse (Some "") m)).
Proof.
  intros silent call s1 r1.
  assert (H1 : has_entry prompt silent (mkQuery "Hello!" None None) empty_st = false)
    by (vm_compute; reflexivity).
  assert (H2 : run_query silent (st_calls empty_st) (mkQuery "Hello!" None None)
               = Ok (mkResponse None tt)) by reflexivity.
  assert (H3 : text (mkResponse (Meta := unit) None tt) = None) by reflexivity.
  assert (H4 : call empty_st = (s1, r1)) by reflexivity.
  split; [exact H1|]. split; [exact H2|]. split; [exact H3|]. split; [exact H4|].
  split; [vm_compute; reflexivity|].
  exact (QueryCacheFacts.query_none_text_poisons dumps loads prompt silent
           "Hello!" None None empty_st s1 _ r1 H1 H2 H3 H4).
Defined.

(** A call with two images from an empty file system. *)
Lemma query_confined_witness :
  let call := query dumps loads prompt (canned false) "Hello!"
                (Some [mkImg "JPEG"; mkImg "PNG"]) None in
  let s1 := fst (call empty_st) in
  let r1 := snd (call empty_st) in
  let folder := model_folder prompt (canned false)
                  (mkQuery "Hello!" (Some [mkImg "JPEG"; mkImg "PNG"]) None) in
  call empty_st = (s1, r1) /\
  r1 = Ok (mkResponse (Some "Hi!") tt) /\
  ((forall p, ~ folder `prefix_of` p -> fs_files (st_fs s1) !! p = fs_files (st_fs empty_st) !! p) /\
   (forall d, d ∈ fs_dirs (st_fs s1) ->
      d ∈ fs_dirs (st_fs empty_st) \/ d = model_cache_dir (canned false) \/ d = folder \/
      d = (folder ++ ["imgs"])%list)).
Proof.
  intros call s1 r1 folder.
  assert (H : call empty_st = (s1, r1)) by reflexivity.
  split; [exact H|]. split; [vm_compute; reflexivity|].
  exact (QueryCacheFacts.query_confined dumps loads prompt (canned false) "Hello!"
           (Some [mkImg "JPEG"; mkImg "PNG"]) None empty_st s1 r1 H).
Defined.

End EntryExamples.
